(** * Fuzzy thermal control: a shallow embedding of [thermal.py]

    The development follows the source file class by class:
    [MembershipFunction] (append, fuzzify_from, fuzzify_all), [Plant]
    (apply_change) and [ThermalControl] (__init__, calculate_change,
    record_history, calculate_error, check_key), then the set-up and the
    loop body of the [__main__] block.

    Numbers.  The program computes with Python and numpy floating-point
    numbers.  Here every number is an exact rational ([Q]): the four
    operations are exact, [round(x, 2)] rounds to the nearest multiple of
    1/100 with ties to the even one, and a true division by zero raises
    [ZeroDivisionError], as it does on Python's own [int] and [float]
    (on a numpy scalar the same division warns and yields an infinity or
    NaN).  Rounding errors of binary64, NaN and the infinities are outside
    this model.

    Failure.  A call that raises is a computation that returns [Err e];
    the state it was working on is then lost, as it is for the caller of a
    Python method that lets the exception through.

    Time.  [time.sleep(self.skew_rate)] in [Plant.apply_change] only
    delays the caller; the delay is not part of the model. *)

From Stdlib Require Import QArith Qabs Qminmax Qround Lqa ZArith Lia.
From stdpp Require Import base option list gmap strings fin_maps.

Local Open Scope Q_scope.

(** ** Exceptions and the result monad *)

Inductive exception : Type :=
| InvalidPoints (message : string)
| ZeroDivisionError
| KeyError (key : string)
| ValueError
| IndexError
| UnboundLocalError
| SystemExit.

Inductive result (A : Type) : Type :=
| OK (a : A)
| Err (e : exception).
Arguments OK {A} a.
Arguments Err {A} e.

#[global] Instance result_ret : MRet result := fun A a => OK a.
#[global] Instance result_bind : MBind result := fun A B k r =>
  match r with
  | OK a => k a
  | Err e => Err e
  end.

(** A list comprehension whose body may raise: left to right, the first
    exception ends it. *)
Fixpoint comprehension {A B : Type} (f : A -> result B) (l : list A) : result (list B) :=
  match l with
  | [] => OK []
  | x :: l' => y ← f x; ys ← comprehension f l'; OK (y :: ys)
  end.

(** ** Numbers *)

(** [x / y] of Python. *)
Definition truediv (x y : Q) : result Q :=
  if Qeq_bool y 0 then Err ZeroDivisionError else OK (x / y).

(** Nearest integer, ties to even. *)
Definition round_half_even (q : Q) : Z :=
  let f := Qfloor q in
  match Qcompare (q - inject_Z f) (1 # 2) with
  | Lt => f
  | Gt => (f + 1)%Z
  | Eq => if Z.even f then f else (f + 1)%Z
  end.

(** [round(x, 2)]. *)
Definition round2 (x : Q) : Q := Qmake (round_half_even (x * 100)) 100.

(** [np.linspace(start, stop, num)] for [num >= 2]. *)
Definition linspace (start stop : Q) (num : nat) : list Q :=
  let step := (stop - start) / inject_Z (Z.of_nat (num - 1)) in
  map (fun i : nat => Qred (inject_Z (Z.of_nat i) * step + start)) (seq 0 num).

(** [np.sum]. *)
Definition np_sum (l : list Q) : Q := fold_left (fun acc x => Qred (acc + x)) l 0.

(** ** class MembershipFunction *)

Record MembershipFunction : Type := mkMembershipFunction {
  __name__ : string;
  formulas : gmap string (list Q)
}.

(** [MembershipFunction(name)]. *)
Definition MembershipFunction_init (name : string) : MembershipFunction :=
  {| __name__ := name; formulas := ∅ |}.

(** [InvalidPoints(formula_name)]: the exception with its message. *)
Definition InvalidPoints_init (formula_name : string) : exception :=
  InvalidPoints (formula_name ++ " does not contain three or four points").

Definition append (self : MembershipFunction) (formula_name : string) (points : list Q)
  : result MembershipFunction :=
  if negb ((3 <=? length points)%nat && (length points <=? 4)%nat)
  then Err (InvalidPoints_init formula_name)
  else OK {| __name__ := __name__ self;
             formulas := <[formula_name := points]> (formulas self) |}.

Definition fuzzify_from (self : MembershipFunction) (formula_name : string) (x : Q)
  : result Q :=
  match formulas self !! formula_name with
  | None => Err (KeyError formula_name)
  | Some points =>
      if (length points =? 4)%nat then
        match points with
        | [a; b; c; d] =>
            l ← truediv (x - a) (b - a);
            r ← truediv (d - x) (d - c);
            OK (Qmax (Qmin (Qmin l 1) r) 0)
        | _ => Err ValueError
        end
      else
        match points with
        | [a; b; c] =>
            l ← truediv (x - a) (b - a);
            r ← truediv (c - x) (c - b);
            OK (Qmax (Qmin l r) 0)
        | _ => Err ValueError
        end
  end.

(** The comprehension [{key: self.fuzzify_from(key, x) for key in self.formulas}]. *)
Definition fuzzify_all (self : MembershipFunction) (x : Q) : result (gmap string Q) :=
  map_fold
    (fun key _ acc =>
       degrees ← acc;
       d ← fuzzify_from self key x;
       OK (<[key := d]> degrees))
    (OK ∅) (formulas self).

(** [d[key]] on a dict. *)
Definition getitem {A : Type} (d : gmap string A) (key : string) : result A :=
  match d !! key with
  | Some v => OK v
  | None => Err (KeyError key)
  end.

(** ** class Plant *)

Record Plant : Type := mkPlant {
  skew_rate : Q;
  change_value : Q
}.

Definition Qlt_bool (x y : Q) : bool := negb (Qle_bool y x).

Definition apply_change (self : Plant) (environment_temp crisp_output : Q)
  : result (Q * string) :=
  let scale := Qmin (Qabs crisp_output / 100) 1 in
  let applied_change := round2 (change_value self * scale) in
  '(environment_temp, action) ←
    (if Qlt_bool (Qabs crisp_output) (1 # 100) || Qlt_bool applied_change (1 # 100)
     then OK (environment_temp, "no_change")
     else if Qlt_bool 0 crisp_output
     then OK (environment_temp + applied_change, "heater")
     else if Qlt_bool crisp_output 0
     then OK (environment_temp - applied_change, "cooler")
     else Err UnboundLocalError);
  OK (round2 environment_temp, action).

(** ** class ThermalControl *)

Record ThermalControl : Type := mkThermalControl {
  target_temp : Q;
  environment_temp : Q;
  current_error : Q;
  previous_error : Q;
  change_error : Q;
  temp_function : MembershipFunction;
  error_function : MembershipFunction;
  error_dot_function : MembershipFunction;
  plant : Plant;
  number_of_temps : nat;
  temperature : list Q;
  aggregation : list Q;
  orig_cool : list Q;
  orig_hot : list Q;
  orig_zero : list Q;
  temperature_history : list Q;
  COG : Q
}.

Definition ThermalControl_init (command initial_temp : Q)
    (temp_function error_function error_dot_function : MembershipFunction)
    (plant : Plant) : result ThermalControl :=
  let target_temp := command in
  let environment_temp := initial_temp in
  let current_error := target_temp - environment_temp in
  let previous_error := 0 in
  let change_error := previous_error - current_error in
  let temperature := linspace (-100) 100 200 in
  orig_cool ← comprehension (fuzzify_from temp_function "cooler") temperature;
  orig_hot ← comprehension (fuzzify_from temp_function "heater") temperature;
  orig_zero ← comprehension (fuzzify_from temp_function "no_change") temperature;
  OK {| target_temp := target_temp;
        environment_temp := environment_temp;
        current_error := current_error;
        previous_error := previous_error;
        change_error := change_error;
        temp_function := temp_function;
        error_function := error_function;
        error_dot_function := error_dot_function;
        plant := plant;
        number_of_temps := 200;
        temperature := temperature;
        aggregation := [];
        orig_cool := orig_cool;
        orig_hot := orig_hot;
        orig_zero := orig_zero;
        temperature_history := replicate 50 environment_temp;
        COG := 0 |}.

(** Assignments to the attributes that the methods write. *)
Definition set_aggregation (self : ThermalControl) (v : list Q) : ThermalControl :=
  mkThermalControl (target_temp self) (environment_temp self) (current_error self)
    (previous_error self) (change_error self) (temp_function self)
    (error_function self) (error_dot_function self) (plant self)
    (number_of_temps self) (temperature self) v (orig_cool self) (orig_hot self)
    (orig_zero self) (temperature_history self) (COG self).

Definition set_COG (self : ThermalControl) (v : Q) : ThermalControl :=
  mkThermalControl (target_temp self) (environment_temp self) (current_error self)
    (previous_error self) (change_error self) (temp_function self)
    (error_function self) (error_dot_function self) (plant self)
    (number_of_temps self) (temperature self) (aggregation self) (orig_cool self)
    (orig_hot self) (orig_zero self) (temperature_history self) v.

Definition set_environment_temp (self : ThermalControl) (v : Q) : ThermalControl :=
  mkThermalControl (target_temp self) v (current_error self)
    (previous_error self) (change_error self) (temp_function self)
    (error_function self) (error_dot_function self) (plant self)
    (number_of_temps self) (temperature self) (aggregation self) (orig_cool self)
    (orig_hot self) (orig_zero self) (temperature_history self) (COG self).

Definition set_temperature_history (self : ThermalControl) (v : list Q) : ThermalControl :=
  mkThermalControl (target_temp self) (environment_temp self) (current_error self)
    (previous_error self) (change_error self) (temp_function self)
    (error_function self) (error_dot_function self) (plant self)
    (number_of_temps self) (temperature self) (aggregation self) (orig_cool self)
    (orig_hot self) (orig_zero self) v (COG self).

Definition set_target_temp (self : ThermalControl) (v : Q) : ThermalControl :=
  mkThermalControl v (environment_temp self) (current_error self)
    (previous_error self) (change_error self) (temp_function self)
    (error_function self) (error_dot_function self) (plant self)
    (number_of_temps self) (temperature self) (aggregation self) (orig_cool self)
    (orig_hot self) (orig_zero self) (temperature_history self) (COG self).

Definition set_errors (self : ThermalControl) (previous current change : Q) : ThermalControl :=
  mkThermalControl (target_temp self) (environment_temp self) current
    previous change (temp_function self)
    (error_function self) (error_dot_function self) (plant self)
    (number_of_temps self) (temperature self) (aggregation self) (orig_cool self)
    (orig_hot self) (orig_zero self) (temperature_history self) (COG self).

(** *** The fuzzy rule matrix of [calculate_change] *)

(** The keys of [table], of [error_degree] and of [error_dot_degree]. *)
Inductive term : Type := positive | negative | zero.

Definition key (t : term) : string :=
  match t with
  | positive => "positive"
  | negative => "negative"
  | zero => "zero"
  end.

(** The output formula that the entry [table[error_term][rate_term]]
    passes to [self.temp_function.fuzzify_from], entry by entry as the
    dictionary literal has them. *)
Definition table_output (error_term rate_term : term) : string :=
  match error_term, rate_term with
  | positive, positive => "heater"
  | positive, zero => "heater"
  | positive, negative => "heater"
  | negative, positive => "cooler"
  | negative, zero => "cooler"
  | negative, negative => "cooler"
  | zero, positive => "cooler"
  | zero, zero => "no_change"
  | zero, negative => "heater"
  end.

(** One entry: [[min(fuzzify_from(out, x), min(error_degree[e],
    error_dot_degree[r])) for x in self.temperature]]. *)
Definition table_entry (self : ThermalControl)
    (error_degree error_dot_degree : gmap string Q)
    (error_term rate_term : term) : result (list Q) :=
  comprehension
    (fun x =>
       d ← fuzzify_from (temp_function self) (table_output error_term rate_term) x;
       de ← getitem error_degree (key error_term);
       dr ← getitem error_dot_degree (key rate_term);
       OK (Qmin d (Qmin de dr)))
    (temperature self).

(** [[max(i) for i in zip(l1, ..., l9)]]. *)
Definition zip_max (first : list Q) (others : list (list Q)) : list Q :=
  fold_left (zip_with Qmax) others first.

(** The first part of [calculate_change], up to the assignment of
    [self.aggregation]: both inputs are fuzzified, the nine entries of
    [table] are evaluated in the order of the literal, and their curves are
    joined by a pointwise maximum. *)
Definition aggregate (self : ThermalControl) : result (list Q) :=
  error_degree ← fuzzify_all (error_function self) (current_error self);
  error_dot_degree ← fuzzify_all (error_dot_function self) (change_error self);
  let entry := table_entry self error_degree error_dot_degree in
  pp ← entry positive positive;
  pz ← entry positive zero;
  pn ← entry positive negative;
  np ← entry negative positive;
  nz ← entry negative zero;
  nn ← entry negative negative;
  zp ← entry zero positive;
  zz ← entry zero zero;
  zn ← entry zero negative;
  OK (zip_max pp [pz; pn; np; nz; nn; zp; zz; zn]).

Definition calculate_change (self : ThermalControl) : result (ThermalControl * string) :=
  aggregation ← aggregate self;
  let self := set_aggregation self aggregation in
  let numerator := np_sum (zip_with Qmult aggregation (temperature self)) in
  let denominator := np_sum aggregation in
  if Qeq_bool denominator 0 then OK (self, "no_change")
  else
    let self := set_COG self (round2 (numerator / denominator)) in
    '(new_temp, action) ← apply_change (plant self) (environment_temp self) (COG self);
    OK (set_environment_temp self new_temp, action).

Definition record_history (self : ThermalControl) : result ThermalControl :=
  match temperature_history self with
  | [] => Err IndexError
  | _ :: rest => OK (set_temperature_history self (rest ++ [environment_temp self]))
  end.

Definition calculate_error (self : ThermalControl) : ThermalControl :=
  let previous_error := current_error self in
  let current_error := target_temp self - environment_temp self in
  set_errors self previous_error current_error (previous_error - current_error).

(** What the keyboard holds when [check_key] polls it: whether [c] is
    down, with the line then typed at the prompt ([None] when [float]
    rejects it), and whether [q] is down. *)
Record keys : Type := mkKeys {
  c_pressed : option (option Q);
  q_pressed : bool
}.

Definition check_key (self : ThermalControl) (k : keys) : result ThermalControl :=
  let self :=
    match c_pressed k with
    | Some (Some v) => set_target_temp self v
    | Some None => self
    | None => self
    end in
  if q_pressed k then Err SystemExit else OK self.

(** ** The [__main__] block *)

Definition main_setup (temp init skew : Q) : result ThermalControl :=
  let error := MembershipFunction_init "error" in
  error ← append error "negative" [-1000; -999; -2; 0];
  error ← append error "zero" [-2; 0; 2];
  error ← append error "positive" [0; 2; 999; 1000];
  let error_dot := MembershipFunction_init "error_dot" in
  error_dot ← append error_dot "negative" [-1000; -999; -5; 0];
  error_dot ← append error_dot "zero" [-50; 0; 5];
  error_dot ← append error_dot "positive" [0; 5; 999; 1000];
  let temp_output := MembershipFunction_init "temp_output" in
  temp_output ← append temp_output "cooler" [-1000; -999; -50; 0];
  temp_output ← append temp_output "no_change" [-50; 0; 50];
  temp_output ← append temp_output "heater" [0; 50; 999; 1000];
  let plant := {| skew_rate := skew; change_value := 3 |} in
  ThermalControl_init temp init temp_output error error_dot plant.

(** One turn of the [while True] loop, up to the [print]. *)
Definition loop_body (thermal : ThermalControl) (k : keys)
  : result (ThermalControl * string) :=
  '(thermal, action) ← calculate_change thermal;
  let thermal := calculate_error thermal in
  thermal ← check_key thermal k;
  thermal ← record_history thermal;
  OK (thermal, action).

Definition no_keys : keys := {| c_pressed := None; q_pressed := false |}.

(** The states after each turn of the loop, one turn per polled keyboard
    state; an exception (and [q]) ends the run. *)
Fixpoint run (thermal : ThermalControl) (input : list keys) : result (list ThermalControl) :=
  match input with
  | [] => OK []
  | k :: input' =>
      '(thermal', _) ← loop_body thermal k;
      states ← run thermal' input';
      OK (thermal' :: states)
  end.

(** * Vocabulary of the properties *)

(** The three membership functions that the main block builds. *)
Definition main_error : MembershipFunction :=
  {| __name__ := "error";
     formulas := <["positive" := [0; 2; 999; 1000]]>
                   (<["zero" := [-2; 0; 2]]>
                      (<["negative" := [-1000; -999; -2; 0]]> ∅)) |}.

Definition main_error_dot : MembershipFunction :=
  {| __name__ := "error_dot";
     formulas := <["positive" := [0; 5; 999; 1000]]>
                   (<["zero" := [-50; 0; 5]]>
                      (<["negative" := [-1000; -999; -5; 0]]> ∅)) |}.

Definition main_temp_output : MembershipFunction :=
  {| __name__ := "temp_output";
     formulas := <["heater" := [0; 50; 999; 1000]]>
                   (<["no_change" := [-50; 0; 50]]>
                      (<["cooler" := [-1000; -999; -50; 0]]> ∅)) |}.

(** The plant of the main block, with the default skew rate. *)
Definition main_plant : Plant := {| skew_rate := 2; change_value := 3 |}.

(** The controller of the main block at target 25 and temperature 25,
    after the target was moved: no error now, an error of -25 before. *)
Definition zero_error_negative_rate : result ThermalControl :=
  thermal ← main_setup 25 25 2;
  OK (set_errors thermal (-25) 0 (-25)).

(** Breakpoints in non-decreasing order, both ramps with a width. *)
Definition proper_points (points : list Q) : Prop :=
  match points with
  | [a; b; c] => a < b /\ b < c
  | [a; b; c; d] => a < b /\ b <= c /\ c < d
  | _ => False
  end.


(** Three or four breakpoints, no ramp without width: [fuzzify_from]
    divides by neither [b - a] nor the width of the right ramp at zero. *)
Definition evaluable (points : list Q) : bool :=
  match points with
  | [a; b; c] => negb (Qeq_bool (b - a) 0) && negb (Qeq_bool (c - b) 0)
  | [a; b; c; d] => negb (Qeq_bool (b - a) 0) && negb (Qeq_bool (d - c) 0)
  | _ => false
  end.

Definition all_evaluable (mf : MembershipFunction) : Prop :=
  map_Forall (fun _ points => evaluable points = true) (formulas mf).

Definition defines (mf : MembershipFunction) (names : list string) : Prop :=
  Forall (fun name => is_Some (formulas mf !! name)) names.

(** The three membership functions hold the formulas that
    [calculate_change] asks for, and every formula can be evaluated. *)
Definition well_formed (self : ThermalControl) : Prop :=
  all_evaluable (temp_function self)
  /\ all_evaluable (error_function self)
  /\ all_evaluable (error_dot_function self)
  /\ defines (temp_function self) ["heater"; "cooler"; "no_change"]
  /\ defines (error_function self) ["positive"; "negative"; "zero"]
  /\ defines (error_dot_function self) ["positive"; "negative"; "zero"].

(** A multiple of 1/100. *)
Definition two_decimals (q : Q) : Prop := exists n : Z, q == n # 100.

(** The amount [applied_change] that [apply_change] computes first. *)
Definition applied_change (self : Plant) (crisp_output : Q) : Q :=
  round2 (change_value self * Qmin (Qabs crisp_output / 100) 1).

(** The condition of the first branch. *)
Definition dead_band (self : Plant) (crisp_output : Q) : Prop :=
  Qabs crisp_output < 1 # 100 \/ applied_change self crisp_output < 1 # 100.


(** The same controller on another plant. *)
Definition with_plant (self : ThermalControl) (p : Plant) : ThermalControl :=
  mkThermalControl (target_temp self) (environment_temp self) (current_error self)
    (previous_error self) (change_error self) (temp_function self)
    (error_function self) (error_dot_function self) p
    (number_of_temps self) (temperature self) (aggregation self) (orig_cool self)
    (orig_hot self) (orig_zero self) (temperature_history self) (COG self).

(** The crisp output that [calculate_change] stores for an aggregated
    curve whose sum is not zero. *)
Definition centre_of_gravity (self : ThermalControl) (curve : list Q) : Q :=
  round2 (np_sum (zip_with Qmult curve (temperature self)) / np_sum curve).

(** The strength of one rule at one sample: the body of the nine list
    comprehensions of [table]. *)
Definition rule_strength (self : ThermalControl)
    (error_degree error_dot_degree : gmap string Q)
    (error_term rate_term : term) (x : Q) : result Q :=
  d ← fuzzify_from (temp_function self) (table_output error_term rate_term) x;
  de ← getitem error_degree (key error_term);
  dr ← getitem error_dot_degree (key rate_term);
  OK (Qmin d (Qmin de dr)).

(** The nine rules in the order in which [zip] receives their curves. *)
Definition rules : list (term * term) :=
  [(positive, positive); (positive, zero); (positive, negative);
   (negative, positive); (negative, zero); (negative, negative);
   (zero, positive); (zero, zero); (zero, negative)].

(** The target after [check_key]. *)
Definition target_after (k : keys) (target : Q) : Q :=
  match c_pressed k with
  | Some (Some v) => v
  | _ => target
  end.

(** The controller after [calculate_error] and [check_key] with [q] up. *)
Definition keyed (inferred : ThermalControl) (k : keys) : ThermalControl :=
  match c_pressed k with
  | Some (Some v) => set_target_temp (calculate_error inferred) v
  | _ => calculate_error inferred
  end.

(** * Properties *)

(** ** Numbers *)


Lemma truediv_nonzero (x y : Q) : ~ y == 0 -> truediv x y = OK (x / y).
Proof.
  intros H. unfold truediv. destruct (Qeq_bool y 0) eqn:E; [|reflexivity].
  apply Qeq_bool_iff in E. contradiction.
Qed.

Lemma Qlt_bool_iff (x y : Q) : Qlt_bool x y = true <-> x < y.
Proof.
  unfold Qlt_bool. rewrite negb_true_iff. split.
  - intros H. apply Qnot_le_lt. intros Hle. apply Qle_bool_iff in Hle. congruence.
  - intros H. destruct (Qle_bool y x) eqn:E; [|reflexivity].
    apply Qle_bool_iff in E. lra.
Qed.


(** ** MembershipFunction.append *)

Example append_length_1 :
  append (MembershipFunction_init "error") "zero" [0]
  = Err (InvalidPoints "zero does not contain three or four points").
Proof. reflexivity. Qed.

Example append_length_2 :
  append (MembershipFunction_init "error") "zero" [0; 1]
  = Err (InvalidPoints "zero does not contain three or four points").
Proof. reflexivity. Qed.

Example append_length_5 :
  append (MembershipFunction_init "error") "zero" [0; 1; 2; 3; 4]
  = Err (InvalidPoints "zero does not contain three or four points").
Proof. reflexivity. Qed.

Example append_length_3 :
  (self ← append (MembershipFunction_init "error") "zero" [-2; 0; 2];
   OK (formulas self !! "zero"))
  = OK (Some [-2; 0; 2]).
Proof. reflexivity. Qed.

Example append_length_4 :
  (self ← append (MembershipFunction_init "error") "zero" [-2; 0; 2; 3];
   OK (formulas self !! "zero"))
  = OK (Some [-2; 0; 2; 3]).
Proof. reflexivity. Qed.

(** C8.  [append] raises [InvalidPoints], with a message that starts with
    the name of the formula, exactly when the list of points has neither 3
    nor 4 elements.  Otherwise it returns, the formula is registered under
    its name with these points, the other formulas are as they were, and a
    second [append] under the same name replaces the points of the first. *)
Theorem append_spec (self : MembershipFunction) (formula_name : string) (points : list Q) :
  (~ (length points = 3%nat \/ length points = 4%nat) ->
     append self formula_name points
     = Err (InvalidPoints (formula_name ++ " does not contain three or four points")))
  /\ (length points = 3%nat \/ length points = 4%nat ->
      exists self',
        append self formula_name points = OK self'
        /\ formulas self' !! formula_name = Some points
        /\ (forall other, other <> formula_name ->
              formulas self' !! other = formulas self !! other)
        /\ forall points' : list Q,
             length points' = 3%nat \/ length points' = 4%nat ->
             exists self'',
               append self' formula_name points' = OK self''
               /\ formulas self'' !! formula_name = Some points'
               /\ formulas self'' = <[formula_name := points']> (formulas self)).
Proof.
  assert (Hlen : forall l : list Q,
             negb ((3 <=? length l)%nat && (length l <=? 4)%nat) = false
             <-> (length l = 3%nat \/ length l = 4%nat)).
  { intros l. rewrite negb_false_iff, andb_true_iff, !Nat.leb_le. lia. }
  split.
  - intros Hbad. unfold append.
    destruct (negb _) eqn:E; [reflexivity|].
    apply Hlen in E. contradiction.
  - intros Hgood. unfold append at 1. apply Hlen in Hgood as ->.
    eexists. split; [reflexivity|]. cbn.
    split; [apply lookup_insert_eq|].
    split; [intros other Hne; apply lookup_insert_ne; congruence|].
    intros points' Hgood'. unfold append. apply Hlen in Hgood' as ->.
    eexists. split; [reflexivity|]. cbn.
    split; [apply lookup_insert_eq|apply insert_insert_eq].
Qed.

(** ** MembershipFunction.fuzzify_from *)

Lemma ramp_le_1 (n d : Q) : 0 < d -> n <= d -> n / d <= 1.
Proof.
  intros Hd Hn. apply Qle_shift_div_r; [assumption|lra].
Qed.

Lemma clamp_trapezoid (l r : Q) :
  0 <= Qmax (Qmin (Qmin l 1) r) 0 /\ Qmax (Qmin (Qmin l 1) r) 0 <= 1.
Proof.
  split; [apply Q.le_max_r|].
  apply Q.max_lub; [|lra].
  eapply Qle_trans; [apply Q.le_min_l|apply Q.le_min_r].
Qed.

Lemma clamp_triangle (l r : Q) :
  l <= 1 \/ r <= 1 ->
  0 <= Qmax (Qmin l r) 0 /\ Qmax (Qmin l r) 0 <= 1.
Proof.
  intros H. split; [apply Q.le_max_r|].
  apply Q.max_lub; [|lra].
  destruct H as [H|H].
  - eapply Qle_trans; [apply Q.le_min_l|exact H].
  - eapply Qle_trans; [apply Q.le_min_r|exact H].
Qed.

(** C6.  For a registered formula whose breakpoints are in non-decreasing
    order with ramps of nonzero width, [fuzzify_from] returns at every [x],
    and the degree it returns lies in the closed interval from 0 to 1. *)
Theorem fuzzify_from_unit_interval (self : MembershipFunction) (formula_name : string)
    (points : list Q) (x : Q) :
  formulas self !! formula_name = Some points ->
  proper_points points ->
  exists degree,
    fuzzify_from self formula_name x = OK degree /\ 0 <= degree /\ degree <= 1.
Proof.
  intros Hreg Hpts. unfold fuzzify_from. rewrite Hreg.
  destruct points as [|a [|b [|c [|d [|? ?]]]]]; try contradiction; cbn in Hpts.
  - destruct Hpts as [Hab Hbc]. cbn [length Nat.eqb].
    rewrite (truediv_nonzero (x - a) (b - a)) by lra.
    rewrite (truediv_nonzero (c - x) (c - b)) by lra.
    eexists. split; [reflexivity|].
    apply clamp_triangle.
    destruct (Qlt_le_dec b x) as [Hx|Hx].
    + right. apply ramp_le_1; lra.
    + left. apply ramp_le_1; lra.
  - destruct Hpts as (Hab & Hbc & Hcd). cbn [length Nat.eqb].
    rewrite (truediv_nonzero (x - a) (b - a)) by lra.
    rewrite (truediv_nonzero (d - x) (d - c)) by lra.
    eexists. split; [reflexivity|]. apply clamp_trapezoid.
Qed.

(** The error formula [zero] of the main block, evaluated at 1. *)
Lemma fuzzify_from_unit_interval_witness :
  exists degree,
    fuzzify_from {| __name__ := "error"; formulas := {[ "zero" := [-2; 0; 2] ]} |} "zero" 1
    = OK degree /\ 0 <= degree /\ degree <= 1.
Proof.
  apply (fuzzify_from_unit_interval _ "zero" [-2; 0; 2] 1).
  - reflexivity.
  - cbn. split; reflexivity.
Defined.




(** ** Rounding to two decimals *)

Lemma round2_two_decimals (x : Q) : two_decimals (round2 x).
Proof. exists (round_half_even (x * 100)). reflexivity. Qed.

Lemma round_half_even_integer (x : Q) (n : Z) :
  x == inject_Z n -> round_half_even x = n.
Proof.
  intros H. unfold round_half_even.
  assert (Hf : Qfloor x = n) by (rewrite H; apply Qfloor_Z).
  rewrite Hf.
  assert (Hlt : Qcompare (x - inject_Z n) (1 # 2) = Lt).
  { rewrite <- Qlt_alt. lra. }
  now rewrite Hlt.
Qed.

Lemma round2_fixed (x : Q) : two_decimals x -> round2 x == x.
Proof.
  intros [n Hn]. unfold round2.
  rewrite (round_half_even_integer (x * 100) n).
  - symmetry. exact Hn.
  - rewrite Hn. unfold Qeq, Qmult, inject_Z. cbn. lia.
Qed.

Lemma round2_nonneg (x : Q) : 0 <= x -> 0 <= round2 x.
Proof.
  intros Hx. unfold round2, Qle. cbn. rewrite Z.mul_1_r.
  assert (Hf : (0 <= Qfloor (x * 100))%Z).
  { change 0%Z with (Qfloor 0). apply Qfloor_resp_le. lra. }
  unfold round_half_even.
  destruct (Qcompare _ _); [destruct (Z.even _)| |]; lia.
Qed.

(** A rounded non-negative amount below 1/100 is zero. *)
Lemma round2_small (x : Q) : 0 <= x -> round2 x < 1 # 100 -> round2 x == 0.
Proof.
  intros Hx Hlt. pose proof (round2_nonneg x Hx) as Hge.
  unfold round2 in *. unfold Qlt, Qle, Qeq in *. cbn in *. lia.
Qed.

Lemma round_half_even_compat (x y : Q) : x == y -> round_half_even x = round_half_even y.
Proof.
  intros H. unfold round_half_even.
  rewrite (Qfloor_comp x y H).
  now rewrite (Qcompare_comp (x - inject_Z (Qfloor y)) (y - inject_Z (Qfloor y))
                 ltac:(rewrite H; reflexivity) (1 # 2) (1 # 2) ltac:(reflexivity)).
Qed.

Lemma round2_compat (x y : Q) : x == y -> round2 x = round2 y.
Proof.
  intros H. unfold round2. f_equal. apply round_half_even_compat. now rewrite H.
Qed.


(** ** Plant.apply_change *)

Lemma dead_band_test (self : Plant) (c : Q) :
  Qlt_bool (Qabs c) (1 # 100) || Qlt_bool (applied_change self c) (1 # 100) = true
  <-> dead_band self c.
Proof.
  unfold dead_band. rewrite orb_true_iff, !Qlt_bool_iff. reflexivity.
Qed.

Lemma apply_change_no_change (self : Plant) (env c : Q) :
  dead_band self c -> apply_change self env c = OK (round2 env, "no_change").
Proof.
  intros H. apply dead_band_test in H. unfold apply_change.
  fold (applied_change self c). now rewrite H.
Qed.

Lemma apply_change_heater (self : Plant) (env c : Q) :
  ~ dead_band self c -> 0 < c ->
  apply_change self env c = OK (round2 (env + applied_change self c), "heater").
Proof.
  intros H Hc. unfold apply_change. fold (applied_change self c).
  destruct (_ || _) eqn:E; [apply dead_band_test in E; contradiction|].
  apply Qlt_bool_iff in Hc. now rewrite Hc.
Qed.

Lemma apply_change_cooler (self : Plant) (env c : Q) :
  ~ dead_band self c -> c < 0 ->
  apply_change self env c = OK (round2 (env - applied_change self c), "cooler").
Proof.
  intros H Hc. unfold apply_change. fold (applied_change self c).
  destruct (_ || _) eqn:E; [apply dead_band_test in E; contradiction|].
  destruct (Qlt_bool 0 c) eqn:E0; [apply Qlt_bool_iff in E0; lra|].
  apply Qlt_bool_iff in Hc. now rewrite Hc.
Qed.

Lemma dead_band_dec (self : Plant) (c : Q) : dead_band self c \/ ~ dead_band self c.
Proof.
  destruct (Qlt_bool (Qabs c) (1 # 100) || Qlt_bool (applied_change self c) (1 # 100)) eqn:E.
  - left. now apply dead_band_test.
  - right. intros H. apply dead_band_test in H. congruence.
Qed.

Lemma outside_dead_band_sign (self : Plant) (c : Q) : ~ dead_band self c -> 0 < c \/ c < 0.
Proof.
  intros H. destruct (Qlt_le_dec 0 c) as [?|Hle]; [now left|right].
  destruct (Qlt_le_dec c 0) as [?|Hge]; [assumption|].
  exfalso. apply H. left.
  assert (Hc : c == 0) by lra. rewrite Hc. reflexivity.
Qed.

(** The three branches, and that one of them is always taken. *)
Lemma apply_change_cases (self : Plant) (env c : Q) :
  (dead_band self c /\ apply_change self env c = OK (round2 env, "no_change"))
  \/ (~ dead_band self c /\ 0 < c
      /\ apply_change self env c = OK (round2 (env + applied_change self c), "heater"))
  \/ (~ dead_band self c /\ c < 0
      /\ apply_change self env c = OK (round2 (env - applied_change self c), "cooler")).
Proof.
  destruct (dead_band_dec self c) as [H|H].
  - left. split; [assumption|now apply apply_change_no_change].
  - right. destruct (outside_dead_band_sign self c H) as [Hc|Hc].
    + left. repeat split; try assumption. now apply apply_change_heater.
    + right. repeat split; try assumption. now apply apply_change_cooler.
Qed.







Example apply_change_heats : apply_change main_plant 0 61.37 = OK (1.84, "heater").
Proof. reflexivity. Qed.

Example apply_change_cools : apply_change main_plant 30.004 (-250) = OK (27.00, "cooler").
Proof. reflexivity. Qed.

Example apply_change_ties_to_even : apply_change main_plant 0.125 0 = OK (0.12, "no_change").
Proof. reflexivity. Qed.

(** ** When [calculate_change] returns *)


Lemma comprehension_length {A B : Type} (f : A -> result B) (l : list A) (ys : list B) :
  comprehension f l = OK ys -> length ys = length l.
Proof.
  revert ys. induction l as [|x l IH]; cbn; intros ys H.
  - now inversion H.
  - destruct (f x) as [y|e]; cbn in H; [|discriminate H].
    destruct (comprehension f l) as [ys'|e]; cbn in H; [|discriminate H].
    inversion H; subst. cbn. now rewrite (IH ys').
Qed.

Lemma fuzzify_from_total (self : MembershipFunction) (formula_name : string) (x : Q) :
  all_evaluable self -> is_Some (formulas self !! formula_name) ->
  exists degree, fuzzify_from self formula_name x = OK degree.
Proof.
  intros Hall [points Hreg]. pose proof (Hall _ _ Hreg) as Hev. cbn in Hev.
  unfold fuzzify_from. rewrite Hreg.
  destruct points as [|a [|b [|c [|d [|? ?]]]]]; try discriminate Hev;
    cbn [length Nat.eqb]; cbn in Hev;
    apply andb_true_iff in Hev as [H1 H2];
    apply negb_true_iff in H1, H2; unfold truediv; rewrite H1, H2; cbn; eauto.
Qed.

Lemma fuzzify_all_total (self : MembershipFunction) (x : Q) :
  all_evaluable self ->
  exists degrees,
    fuzzify_all self x = OK degrees
    /\ forall name, is_Some (formulas self !! name) -> is_Some (degrees !! name).
Proof.
  intros Hall.
  assert (Hgen : forall m : gmap string (list Q),
             (forall name, is_Some (m !! name) ->
                           exists degree, fuzzify_from self name x = OK degree) ->
             exists degrees : gmap string Q,
               map_fold (fun key (_ : list Q) (acc : result (gmap string Q)) =>
                           degrees ← acc;
                           d ← fuzzify_from self key x;
                           OK (<[key := d]> degrees)) (OK ∅) m = OK degrees
               /\ forall name, is_Some (m !! name) -> is_Some (degrees !! name)).
  { intros m. apply (map_fold_weak_ind
      (fun (r : result (gmap string Q)) (m : gmap string (list Q)) =>
      (forall name, is_Some (m !! name) ->
                    exists degree, fuzzify_from self name x = OK degree) ->
      exists degrees : gmap string Q, r = OK degrees
        /\ forall name, is_Some (m !! name) -> is_Some (degrees !! name))).
    - intros _. exists ∅. split; [reflexivity|].
      intros name Hn. rewrite lookup_empty in Hn.
      destruct Hn as [v Hv]. discriminate Hv.
    - intros i points m' r Hfresh IH Hev.
      destruct IH as [degrees [-> Hdom]].
      { intros name Hn. apply Hev. rewrite lookup_insert_is_Some'. tauto. }
      destruct (Hev i) as [d Hd]; [rewrite lookup_insert_eq; eauto|].
      cbn. rewrite Hd. cbn. exists (<[i := d]> degrees). split; [reflexivity|].
      intros name. rewrite !lookup_insert_is_Some'. intros [?|?]; [now left|].
      right. now apply Hdom. }
  apply Hgen. intros name Hn. now apply fuzzify_from_total.
Qed.






(** The two ways out of [calculate_change]. *)
Lemma calculate_change_unfold (self : ThermalControl) (curve : list Q) :
  aggregate self = OK curve ->
  calculate_change self =
    let self := set_aggregation self curve in
    if Qeq_bool (np_sum curve) 0 then OK (self, "no_change")
    else
      let self :=
        set_COG self (round2 (np_sum (zip_with Qmult curve (temperature self))
                              / np_sum curve)) in
      '(new_temp, action) ← apply_change (plant self) (environment_temp self) (COG self);
      OK (set_environment_temp self new_temp, action).
Proof.
  intros H. unfold calculate_change. rewrite H. reflexivity.
Qed.





(** ** The degenerate aggregation *)

(** C4.  When the aggregated curve sums to zero, [calculate_change]
    returns [no_change] without raising; of the controller only
    [aggregation] is assigned, so [COG] and [environment_temp] keep their
    values; and the plant plays no part: with any other plant the step
    returns the same action and leaves the same attributes. *)
Theorem calculate_change_degenerate (self : ThermalControl) (curve : list Q) :
  aggregate self = OK curve ->
  np_sum curve == 0 ->
  calculate_change self = OK (set_aggregation self curve, "no_change")
  /\ COG (set_aggregation self curve) = COG self
  /\ environment_temp (set_aggregation self curve) = environment_temp self
  /\ forall p : Plant,
       calculate_change (with_plant self p)
       = OK (set_aggregation (with_plant self p) curve, "no_change").
Proof.
  intros Hagg Hzero. apply Qeq_bool_iff in Hzero.
  split; [|split; [reflexivity|split; [reflexivity|]]].
  - rewrite (calculate_change_unfold self curve Hagg). cbn zeta. now rewrite Hzero.
  - intros p.
    rewrite (calculate_change_unfold (with_plant self p) curve Hagg).
    cbn zeta. now rewrite Hzero.
Qed.

(** A target of 5000 degrees from 0: the error is beyond every formula of
    the main block, and no rule fires. *)
Lemma calculate_change_degenerate_witness :
  exists self curve,
    main_setup 5000 0 2 = OK self
    /\ calculate_change self = OK (set_aggregation self curve, "no_change")
    /\ COG (set_aggregation self curve) = COG self
    /\ environment_temp (set_aggregation self curve) = environment_temp self
    /\ forall p : Plant,
         calculate_change (with_plant self p)
         = OK (set_aggregation (with_plant self p) curve, "no_change").
Proof.
  do 2 eexists. split; [vm_compute; reflexivity|].
  apply calculate_change_degenerate.
  - vm_compute. reflexivity.
  - vm_compute. reflexivity.
Defined.

(** ** The rule matrix *)

Lemma comprehension_lookup {A B : Type} (f : A -> result B) (l : list A) (ys : list B)
    (i : nat) (x : A) :
  comprehension f l = OK ys -> l !! i = Some x ->
  exists y, f x = OK y /\ ys !! i = Some y.
Proof.
  revert ys i. induction l as [|x' l IH]; intros ys i H Hi; [discriminate Hi|].
  cbn in H. destruct (f x') as [y'|e] eqn:Hy; cbn in H; [|discriminate H].
  destruct (comprehension f l) as [ys'|e] eqn:Hys; cbn in H; [|discriminate H].
  inversion H; subst. destruct i as [|i]; cbn in *.
  - inversion Hi; subst. eauto.
  - apply (IH ys' i eq_refl Hi).
Qed.

(** The entry for a zero error and a negative rate evaluates [heater],
    not [cooler], and the entry for a zero error and a positive rate
    evaluates [cooler], not [heater]; with the formulas of the main block
    a step at error 0 and rate -25 switches the heater on. *)
Lemma zero_error_row_is_mirrored :
  table_output zero negative = "heater"
  /\ table_output zero negative <> "cooler"
  /\ table_output zero positive = "cooler"
  /\ table_output zero positive <> "heater"
  /\ exists thermal thermal',
       zero_error_negative_rate = OK thermal
       /\ current_error thermal == 0
       /\ change_error thermal == -25
       /\ calculate_change thermal = OK (thermal', "heater").
Proof.
  split; [reflexivity|]. split; [discriminate|].
  split; [reflexivity|]. split; [discriminate|].
  do 2 eexists. split; [vm_compute; reflexivity|].
  split; [reflexivity|]. split; [reflexivity|].
  vm_compute. reflexivity.
Qed.

(** C1, as the code has it.  Every entry of the row for a positive error
    evaluates [heater] and every entry of the row for a negative error
    evaluates [cooler]; in the row for a zero error a negative rate
    evaluates [heater], a zero rate [no_change] and a positive rate
    [cooler].  The curve of an entry is, sample by sample, the degree of
    that output formula cut at the smaller of the two input degrees. *)
Theorem rule_matrix :
  (forall rate, table_output positive rate = "heater")
  /\ (forall rate, table_output negative rate = "cooler")
  /\ table_output zero negative = "heater"
  /\ table_output zero zero = "no_change"
  /\ table_output zero positive = "cooler"
  /\ forall (self : ThermalControl) (error_degree error_dot_degree : gmap string Q)
       (error_term rate_term : term) (curve : list Q) (i : nat) (x : Q),
       table_entry self error_degree error_dot_degree error_term rate_term = OK curve ->
       temperature self !! i = Some x ->
       exists d de dr,
         fuzzify_from (temp_function self) (table_output error_term rate_term) x = OK d
         /\ error_degree !! key error_term = Some de
         /\ error_dot_degree !! key rate_term = Some dr
         /\ curve !! i = Some (Qmin d (Qmin de dr)).
Proof.
  split; [intros []; reflexivity|]. split; [intros []; reflexivity|].
  do 3 (split; [reflexivity|]).
  intros self ed edd e r curve i x Hentry Hx. unfold table_entry in Hentry.
  destruct (comprehension_lookup _ _ _ i x Hentry Hx) as [y [Hy Hi]].
  destruct (fuzzify_from _ _ x) as [d|] eqn:Hd; cbn in Hy; [|discriminate Hy].
  unfold getitem in Hy.
  destruct (ed !! key e) as [de|] eqn:Hde; cbn in Hy; [|discriminate Hy].
  destruct (edd !! key r) as [dr|] eqn:Hdr; cbn in Hy; [|discriminate Hy].
  inversion Hy; subst. exists d, de, dr. auto.
Qed.

(** ** The first step of the main block *)

(** At target 25 from 0 the first change of error is -25, not 25. *)
Lemma first_change_error_is_negative :
  exists thermal,
    main_setup 25 0 2 = OK thermal
    /\ change_error thermal == -25
    /\ ~ change_error thermal == 25.
Proof.
  eexists. split; [vm_compute; reflexivity|].
  split; [reflexivity|]. intros H. discriminate H.
Qed.

(** C2, as the code has it.  With target 25, initial temperature 0 and
    the set-up of the main block, the first step runs the inference with
    [current_error = 25] and [change_error = -25], which is
    [previous_error - current_error] at [previous_error = 0]; the action
    is [heater], with a centre of gravity of 61.37 and a new temperature
    of 1.84. *)
Theorem first_step :
  exists thermal thermal',
    main_setup 25 0 2 = OK thermal
    /\ current_error thermal == 25
    /\ previous_error thermal == 0
    /\ change_error thermal == previous_error thermal - current_error thermal
    /\ change_error thermal == -25
    /\ calculate_change thermal = OK (thermal', "heater")
    /\ COG thermal' == 61.37
    /\ environment_temp thermal' == 1.84.
Proof.
  do 2 eexists. split; [vm_compute; reflexivity|].
  do 4 (split; [reflexivity|]).
  split; [vm_compute; reflexivity|].
  split; reflexivity.
Qed.

Lemma bind_OK_inv {A B : Type} (r : result A) (k : A -> result B) (b : B) :
  r ≫= k = OK b -> exists a, r = OK a /\ k a = OK b.
Proof.
  destruct r as [a|e]; intros H; [|discriminate H]. exists a. split; [reflexivity|exact H].
Qed.

(** What [__init__] leaves in the attributes that the properties below
    read. *)
Lemma ThermalControl_init_attributes (command initial_temp : Q)
    (tf ef edf : MembershipFunction) (p : Plant) (thermal : ThermalControl) :
  ThermalControl_init command initial_temp tf ef edf p = OK thermal ->
  temp_function thermal = tf
  /\ error_function thermal = ef
  /\ error_dot_function thermal = edf
  /\ temperature_history thermal = replicate 50 initial_temp.
Proof.
  intros H. unfold ThermalControl_init in H.
  apply bind_OK_inv in H as (cool & _ & H).
  apply bind_OK_inv in H as (hot & _ & H).
  apply bind_OK_inv in H as (zeros & _ & H).
  inversion H. repeat split; reflexivity.
Qed.

Lemma main_setup_unfold (temp init skew : Q) :
  main_setup temp init skew
  = ThermalControl_init temp init main_temp_output main_error main_error_dot
      {| skew_rate := skew; change_value := 3 |}.
Proof. reflexivity. Qed.

Lemma three_formulas_evaluable (n1 n2 n3 : string) (p1 p2 p3 : list Q) :
  evaluable p1 = true -> evaluable p2 = true -> evaluable p3 = true ->
  map_Forall (fun (_ : string) points => evaluable points = true)
    (<[n1 := p1]> (<[n2 := p2]> (<[n3 := p3]> (∅ : gmap string (list Q))))).
Proof.
  intros H1 H2 H3.
  apply map_Forall_insert_2; [exact H1|].
  apply map_Forall_insert_2; [exact H2|].
  apply map_Forall_insert_2; [exact H3|].
  apply map_Forall_empty.
Qed.

(** The controller of the main block is well formed, whatever the target,
    the initial temperature and the skew rate. *)
Lemma main_setup_well_formed (temp init skew : Q) (thermal : ThermalControl) :
  main_setup temp init skew = OK thermal -> well_formed thermal.
Proof.
  rewrite main_setup_unfold. intros H.
  apply ThermalControl_init_attributes in H as (Ht & He & Hd & _).
  unfold well_formed, all_evaluable, defines. rewrite Ht, He, Hd.
  split; [apply three_formulas_evaluable; reflexivity|].
  split; [apply three_formulas_evaluable; reflexivity|].
  split; [apply three_formulas_evaluable; reflexivity|].
  repeat split; repeat constructor; eexists; reflexivity.
Qed.

(** ** The temperature history *)

Lemma last_cons {A : Type} (a d : A) (l : list A) :
  List.last (a :: l) d = List.last l a.
Proof.
  revert a d. induction l as [|b l IH]; intros a d; [reflexivity|].
  change (List.last (a :: b :: l) d) with (List.last (b :: l) d).
  rewrite (IH b d), (IH b a). reflexivity.
Qed.

Lemma calculate_change_history (self self' : ThermalControl) (action : string) :
  calculate_change self = OK (self', action) ->
  temperature_history self' = temperature_history self.
Proof.
  intros H. destruct (aggregate self) as [curve|e] eqn:Hagg.
  - rewrite (calculate_change_unfold self curve Hagg) in H. cbn zeta in H.
    destruct (Qeq_bool (np_sum curve) 0).
    + inversion H. reflexivity.
    + destruct (apply_change _ _ _) as [[new_temp a]|]; cbn in H; [|discriminate H].
      inversion H. reflexivity.
  - unfold calculate_change in H. rewrite Hagg in H. discriminate H.
Qed.

Lemma record_history_pops (self : ThermalControl) (oldest : Q) (rest : list Q) :
  temperature_history self = oldest :: rest ->
  record_history self = OK (set_temperature_history self (rest ++ [environment_temp self])).
Proof.
  intros H. unfold record_history. now rewrite H.
Qed.

(** One turn of the loop drops the oldest entry of the history and
    appends the temperature that the turn ends with. *)
Lemma loop_body_history (thermal thermal' : ThermalControl) (k : keys) (action : string) :
  loop_body thermal k = OK (thermal', action) ->
  exists oldest rest,
    temperature_history thermal = oldest :: rest
    /\ temperature_history thermal' = rest ++ [environment_temp thermal'].
Proof.
  intros H. unfold loop_body in H.
  destruct (calculate_change thermal) as [[th1 a]|] eqn:Hcc; cbn in H; [|discriminate H].
  apply calculate_change_history in Hcc.
  unfold check_key in H. destruct (q_pressed k); cbn in H; [discriminate H|].
  unfold record_history in H.
  destruct (c_pressed k) as [[v|]|]; cbn in H; rewrite Hcc in H;
    destruct (temperature_history thermal) as [|oldest rest]; cbn in H;
    try discriminate H; inversion H; subst; exists oldest, rest; split; reflexivity.
Qed.

Lemma run_history (input : list keys) :
  forall (thermal : ThermalControl) (states : list ThermalControl),
    run thermal input = OK states ->
    length states = length input
    /\ temperature_history (List.last states thermal)
       = drop (length states)
           (temperature_history thermal ++ map environment_temp states).
Proof.
  induction input as [|k input IH]; intros thermal states H; cbn in H.
  - inversion H; subst. cbn. split; [reflexivity|]. now rewrite app_nil_r.
  - destruct (loop_body thermal k) as [[thermal' a]|] eqn:Hbody; cbn in H; [|discriminate H].
    destruct (run thermal' input) as [states'|] eqn:Hrun; cbn in H; [|discriminate H].
    inversion H; subst; clear H.
    destruct (IH thermal' states' Hrun) as [Hlen Hhist].
    destruct (loop_body_history _ _ _ _ Hbody) as (oldest & rest & Hold & Hnew).
    split; [cbn; now rewrite Hlen|].
    rewrite last_cons, Hhist, Hnew, Hold. cbn.
    now rewrite <- app_assoc.
Qed.

(** C7.  A new controller holds a history of 50 copies of the initial
    temperature.  [record_history] on a history that is not empty removes
    the entry at index 0 and appends the current temperature.  After any
    number of turns of the loop the history has 50 entries: the last 50 of
    the initial 50 followed by the temperature at the end of each turn, in
    that order, oldest first. *)
Theorem temperature_history_fifo (command initial_temp : Q)
    (temp_function error_function error_dot_function : MembershipFunction)
    (plant : Plant) (thermal : ThermalControl) :
  ThermalControl_init command initial_temp temp_function error_function
    error_dot_function plant = OK thermal ->
  temperature_history thermal = replicate 50 initial_temp
  /\ (forall (self : ThermalControl) (oldest : Q) (rest : list Q),
        temperature_history self = oldest :: rest ->
        record_history self
        = OK (set_temperature_history self (rest ++ [environment_temp self])))
  /\ forall (input : list keys) (states : list ThermalControl),
       run thermal input = OK states ->
       length states = length input
       /\ length (temperature_history (List.last states thermal)) = 50%nat
       /\ temperature_history (List.last states thermal)
          = drop (length states)
              (replicate 50 initial_temp ++ map environment_temp states).
Proof.
  intros Hinit.
  assert (Hhist : temperature_history thermal = replicate 50 initial_temp)
    by apply (ThermalControl_init_attributes _ _ _ _ _ _ _ Hinit).
  split; [exact Hhist|]. split; [apply record_history_pops|].
  intros input states Hrun.
  destruct (run_history input thermal states Hrun) as [Hlen Hlast].
  rewrite Hhist in Hlast. split; [exact Hlen|]. split; [|exact Hlast].
  rewrite Hlast, length_drop, length_app, length_replicate, length_map. lia.
Qed.

(** The controller of the main block at target 25, started at 0. *)
Lemma temperature_history_fifo_witness :
  exists thermal,
    main_setup 25 0 2 = OK thermal
    /\ temperature_history thermal = replicate 50 0
    /\ (forall (self : ThermalControl) (oldest : Q) (rest : list Q),
          temperature_history self = oldest :: rest ->
          record_history self
          = OK (set_temperature_history self (rest ++ [environment_temp self])))
    /\ forall (input : list keys) (states : list ThermalControl),
         run thermal input = OK states ->
         length states = length input
         /\ length (temperature_history (List.last states thermal)) = 50%nat
         /\ temperature_history (List.last states thermal)
            = drop (length states) (replicate 50 0 ++ map environment_temp states).
Proof.
  eexists. split; [vm_compute; reflexivity|].
  apply (temperature_history_fifo 25 0 main_temp_output main_error main_error_dot main_plant).
  vm_compute. reflexivity.
Defined.

(** Three turns of the loop with no key down: the three new temperatures
    are at the end of the history, behind 47 of the initial 50 entries. *)
Example run_three_turns :
  exists thermal states,
    main_setup 25 0 2 = OK thermal
    /\ run thermal [no_keys; no_keys; no_keys] = OK states
    /\ map environment_temp states = [1.84; 3.57; 5.31]
    /\ temperature_history (List.last states thermal)
       = replicate 47 0 ++ [1.84; 3.57; 5.31].
Proof.
  do 2 eexists. split; [vm_compute; reflexivity|].
  split; [vm_compute; reflexivity|].
  split; vm_compute; reflexivity.
Qed.

(** With [q] down the turn ends in [SystemExit], after the inference and
    before the history is written. *)
Example run_quit :
  (thermal ← main_setup 25 0 2;
   run thermal [{| c_pressed := None; q_pressed := true |}])
  = Err SystemExit.
Proof. vm_compute. reflexivity. Qed.

(** * Further properties *)

(** A conjunction whose second part is proved from the first. *)
Lemma and_from_left (A B : Prop) : A -> (A -> B) -> A /\ B.
Proof. tauto. Qed.

(** ** More on rounding *)

Lemma floor_bounds (x : Q) : inject_Z (Qfloor x) <= x /\ x < inject_Z (Qfloor x) + 1.
Proof.
  split; [apply Qfloor_le|].
  pose proof (Qlt_floor x) as H. rewrite inject_Z_plus in H. exact H.
Qed.

(** The three ways [round_half_even] rounds. *)
Lemma round_half_even_cases (x : Q) :
  (x - inject_Z (Qfloor x) < 1 # 2 /\ round_half_even x = Qfloor x)
  \/ (x - inject_Z (Qfloor x) == 1 # 2
      /\ round_half_even x = (if Z.even (Qfloor x) then Qfloor x else Qfloor x + 1)%Z)
  \/ (1 # 2 < x - inject_Z (Qfloor x) /\ round_half_even x = (Qfloor x + 1)%Z).
Proof.
  unfold round_half_even.
  destruct (Qcompare_spec (x - inject_Z (Qfloor x)) (1 # 2)) as [H|H|H]; auto.
Qed.



Lemma round_half_even_mono (x y : Q) : x <= y -> (round_half_even x <= round_half_even y)%Z.
Proof.
  intros Hxy. pose proof (Qfloor_resp_le x y Hxy) as Hf.
  destruct (floor_bounds x) as [Hxl Hxh]. destruct (floor_bounds y) as [Hyl Hyh].
  destruct (Z.eq_dec (Qfloor x) (Qfloor y)) as [E|NE].
  - destruct (round_half_even_cases x) as [[Hx ->]|[[Hx ->]|[Hx ->]]];
      destruct (round_half_even_cases y) as [[Hy ->]|[[Hy ->]|[Hy ->]]];
      rewrite <- ?E in *; try (destruct (Z.even (Qfloor x))); try lia;
      exfalso; lra.
  - assert (Hlt : (Qfloor x + 1 <= Qfloor y)%Z) by lia.
    destruct (round_half_even_cases x) as [[_ ->]|[[_ ->]|[_ ->]]];
      destruct (round_half_even_cases y) as [[_ ->]|[[_ ->]|[_ ->]]];
      try (destruct (Z.even (Qfloor x))); try (destruct (Z.even (Qfloor y))); lia.
Qed.

Lemma round2_mono (x y : Q) : x <= y -> round2 x <= round2 y.
Proof.
  intros H. unfold round2, Qle. cbn.
  apply Z.mul_le_mono_nonneg_r; [lia|]. apply round_half_even_mono. lra.
Qed.

Lemma round2_integer_hundredths (n : Z) : round2 (n # 100) = n # 100.
Proof.
  unfold round2. f_equal. apply round_half_even_integer.
  unfold Qeq, Qmult, inject_Z. cbn. lia.
Qed.


(** ** Sums *)

Lemma np_sum_from (l : list Q) (acc : Q) :
  fold_left (fun acc x => Qred (acc + x)) l acc == acc + np_sum l.
Proof.
  unfold np_sum. revert acc. induction l as [|x l IH]; intros acc; cbn.
  - lra.
  - rewrite (IH (Qred (acc + x))), (IH (Qred (0 + x))), !Qred_correct. lra.
Qed.

Lemma np_sum_cons (x : Q) (l : list Q) : np_sum (x :: l) == x + np_sum l.
Proof.
  unfold np_sum at 1. cbn. rewrite np_sum_from, Qred_correct. lra.
Qed.

Lemma np_sum_nonneg (l : list Q) : Forall (fun v => 0 <= v) l -> 0 <= np_sum l.
Proof.
  induction 1 as [|x l Hx _ IH]; [discriminate|].
  rewrite np_sum_cons. lra.
Qed.

Lemma np_sum_zero (l : list Q) :
  Forall (fun v => 0 <= v) l -> (np_sum l == 0 <-> Forall (fun v => v == 0) l).
Proof.
  induction 1 as [|x l Hx Hl IH].
  - split; [constructor|reflexivity].
  - rewrite np_sum_cons. pose proof (np_sum_nonneg l Hl) as Hs. split.
    + intros H. constructor; [lra|]. apply IH. lra.
    + intros H. inversion_clear H as [|? ? H0 Hrest]. apply IH in Hrest. lra.
Qed.

(** ** The shape of a formula *)

Lemma div_same (d : Q) : ~ d == 0 -> d / d == 1.
Proof. intros H. unfold Qdiv. now apply Qmult_inv_r. Qed.

Lemma div_pos (n d : Q) : 0 < n -> 0 < d -> 0 < n / d.
Proof. intros Hn Hd. apply Qlt_shift_div_l; [assumption|lra]. Qed.

Lemma div_nonpos (n d : Q) : n <= 0 -> 0 < d -> n / d <= 0.
Proof. intros Hn Hd. apply Qle_shift_div_r; [assumption|lra]. Qed.

Lemma div_nonneg (n d : Q) : 0 <= n -> 0 < d -> 0 <= n / d.
Proof. intros Hn Hd. apply Qle_shift_div_l; [assumption|lra]. Qed.

Lemma ramp_ge_1 (n d : Q) : 0 < d -> d <= n -> 1 <= n / d.
Proof. intros Hd Hn. apply Qle_shift_div_l; [assumption|lra]. Qed.

(** Case analysis on every [Qmin] and [Qmax] of the goal. *)
Ltac min_max_cases :=
  repeat match goal with
         | |- context [Qmax ?a ?b] =>
             let m := fresh "m" in
             destruct (Q.max_spec a b) as [[? ?]|[? ?]];
             set (m := Qmax a b) in *; clearbody m
         | |- context [Qmin ?a ?b] =>
             let m := fresh "m" in
             destruct (Q.min_spec a b) as [[? ?]|[? ?]];
             set (m := Qmin a b) in *; clearbody m
         | H : context [Qmax ?a ?b] |- _ =>
             let m := fresh "m" in
             destruct (Q.max_spec a b) as [[? ?]|[? ?]];
             set (m := Qmax a b) in *; clearbody m
         | H : context [Qmin ?a ?b] |- _ =>
             let m := fresh "m" in
             destruct (Q.min_spec a b) as [[? ?]|[? ?]];
             set (m := Qmin a b) in *; clearbody m
         end;
  repeat match goal with
         | H : context [?n / ?d] |- _ =>
             let q := fresh "q" in set (q := n / d) in *; clearbody q
         | |- context [?n / ?d] =>
             let q := fresh "q" in set (q := n / d) in *; clearbody q
         end.

Lemma triangle_value (self : MembershipFunction) (formula_name : string) (a b c x : Q) :
  formulas self !! formula_name = Some [a; b; c] -> a < b -> b < c ->
  fuzzify_from self formula_name x
  = OK (Qmax (Qmin ((x - a) / (b - a)) ((c - x) / (c - b))) 0).
Proof.
  intros Hreg Hab Hbc. unfold fuzzify_from. rewrite Hreg. cbn [length Nat.eqb].
  rewrite (truediv_nonzero (x - a) (b - a)) by lra.
  rewrite (truediv_nonzero (c - x) (c - b)) by lra. reflexivity.
Qed.

Lemma trapezoid_value (self : MembershipFunction) (formula_name : string) (a b c d x : Q) :
  formulas self !! formula_name = Some [a; b; c; d] -> a < b -> c < d ->
  fuzzify_from self formula_name x
  = OK (Qmax (Qmin (Qmin ((x - a) / (b - a)) 1) ((d - x) / (d - c))) 0).
Proof.
  intros Hreg Hab Hcd. unfold fuzzify_from. rewrite Hreg. cbn [length Nat.eqb].
  rewrite (truediv_nonzero (x - a) (b - a)) by lra.
  rewrite (truediv_nonzero (d - x) (d - c)) by lra. reflexivity.
Qed.

(** X1.  A triangle is 1 at its peak, 0 at and beyond its feet, and positive
    between them. *)
Theorem triangle_shape (self : MembershipFunction) (formula_name : string) (a b c : Q) :
  formulas self !! formula_name = Some [a; b; c] -> a < b -> b < c ->
  (exists peak, fuzzify_from self formula_name b = OK peak /\ peak == 1)
  /\ (forall x, x <= a \/ c <= x ->
        exists degree, fuzzify_from self formula_name x = OK degree /\ degree == 0)
  /\ (forall x, a < x -> x < c ->
        exists degree, fuzzify_from self formula_name x = OK degree /\ 0 < degree).
Proof.
  intros Hreg Hab Hbc. split; [|split].
  - rewrite (triangle_value self formula_name a b c b Hreg Hab Hbc).
    eexists. split; [reflexivity|].
    pose proof (div_same (b - a) ltac:(lra)) as Hl.
    pose proof (div_same (c - b) ltac:(lra)) as Hr.
    min_max_cases; lra.
  - intros x Hx. rewrite (triangle_value self formula_name a b c x Hreg Hab Hbc).
    eexists. split; [reflexivity|].
    destruct Hx as [Hx|Hx].
    + pose proof (div_nonpos (x - a) (b - a) ltac:(lra) ltac:(lra)) as Hl.
      min_max_cases; lra.
    + pose proof (div_nonpos (c - x) (c - b) ltac:(lra) ltac:(lra)) as Hr.
      min_max_cases; lra.
  - intros x Hxa Hxc. rewrite (triangle_value self formula_name a b c x Hreg Hab Hbc).
    eexists. split; [reflexivity|].
    pose proof (div_pos (x - a) (b - a) ltac:(lra) ltac:(lra)) as Hl.
    pose proof (div_pos (c - x) (c - b) ltac:(lra) ltac:(lra)) as Hr.
    min_max_cases; lra.
Qed.

Lemma triangle_shape_witness :
  (exists peak, fuzzify_from main_error "zero" 0 = OK peak /\ peak == 1)
  /\ (forall x, x <= -2 \/ 2 <= x ->
        exists degree, fuzzify_from main_error "zero" x = OK degree /\ degree == 0)
  /\ (forall x, -2 < x -> x < 2 ->
        exists degree, fuzzify_from main_error "zero" x = OK degree /\ 0 < degree).
Proof.
  apply (triangle_shape main_error "zero" (-2) 0 2); reflexivity.
Defined.

(** X2.  A trapezoid is 1 on its plateau, 0 at and beyond its feet, and
    positive between them. *)
Theorem trapezoid_shape (self : MembershipFunction) (formula_name : string) (a b c d : Q) :
  formulas self !! formula_name = Some [a; b; c; d] -> a < b -> b <= c -> c < d ->
  (forall x, b <= x -> x <= c ->
     exists degree, fuzzify_from self formula_name x = OK degree /\ degree == 1)
  /\ (forall x, x <= a \/ d <= x ->
        exists degree, fuzzify_from self formula_name x = OK degree /\ degree == 0)
  /\ (forall x, a < x -> x < d ->
        exists degree, fuzzify_from self formula_name x = OK degree /\ 0 < degree).
Proof.
  intros Hreg Hab Hbc Hcd. split; [|split].
  - intros x Hbx Hxc.
    rewrite (trapezoid_value self formula_name a b c d x Hreg Hab Hcd).
    eexists. split; [reflexivity|].
    pose proof (ramp_ge_1 (x - a) (b - a) ltac:(lra) ltac:(lra)) as Hl.
    pose proof (ramp_ge_1 (d - x) (d - c) ltac:(lra) ltac:(lra)) as Hr.
    min_max_cases; lra.
  - intros x Hx. rewrite (trapezoid_value self formula_name a b c d x Hreg Hab Hcd).
    eexists. split; [reflexivity|].
    destruct Hx as [Hx|Hx].
    + pose proof (div_nonpos (x - a) (b - a) ltac:(lra) ltac:(lra)) as Hl.
      min_max_cases; lra.
    + pose proof (div_nonpos (d - x) (d - c) ltac:(lra) ltac:(lra)) as Hr.
      min_max_cases; lra.
  - intros x Hxa Hxd. rewrite (trapezoid_value self formula_name a b c d x Hreg Hab Hcd).
    eexists. split; [reflexivity|].
    pose proof (div_pos (x - a) (b - a) ltac:(lra) ltac:(lra)) as Hl.
    pose proof (div_pos (d - x) (d - c) ltac:(lra) ltac:(lra)) as Hr.
    min_max_cases; lra.
Qed.

Lemma trapezoid_shape_witness :
  (forall x, 50 <= x -> x <= 999 ->
     exists degree, fuzzify_from main_temp_output "heater" x = OK degree /\ degree == 1)
  /\ (forall x, x <= 0 \/ 1000 <= x ->
        exists degree, fuzzify_from main_temp_output "heater" x = OK degree /\ degree == 0)
  /\ (forall x, 0 < x -> x < 1000 ->
        exists degree, fuzzify_from main_temp_output "heater" x = OK degree /\ 0 < degree).
Proof.
  apply (trapezoid_shape main_temp_output "heater" 0 50 999 1000);
    [reflexivity|reflexivity|discriminate|reflexivity].
Defined.

(** ** What [fuzzify_from] raises and returns *)

Lemma truediv_cases (x y : Q) :
  truediv x y = Err ZeroDivisionError \/ truediv x y = OK (x / y).
Proof. unfold truediv. destruct (Qeq_bool y 0); auto. Qed.

(** A formula that is registered never gives [KeyError]. *)
Lemma fuzzify_from_registered (self : MembershipFunction) (formula_name : string)
    (points : list Q) (x : Q) :
  formulas self !! formula_name = Some points ->
  fuzzify_from self formula_name x = Err ZeroDivisionError
  \/ fuzzify_from self formula_name x = Err ValueError
  \/ (exists a b c,
        points = [a; b; c]
        /\ fuzzify_from self formula_name x
           = OK (Qmax (Qmin ((x - a) / (b - a)) ((c - x) / (c - b))) 0))
  \/ (exists a b c d,
        points = [a; b; c; d]
        /\ fuzzify_from self formula_name x
           = OK (Qmax (Qmin (Qmin ((x - a) / (b - a)) 1) ((d - x) / (d - c))) 0)).
Proof.
  intros Hreg. unfold fuzzify_from. rewrite Hreg.
  destruct points as [|a [|b [|c [|d [|? ?]]]]]; cbn [length Nat.eqb]; auto.
  - destruct (truediv_cases (x - a) (b - a)) as [-> | ->]; cbn; auto.
    destruct (truediv_cases (c - x) (c - b)) as [-> | ->]; cbn; auto.
    right. right. left. exists a, b, c. auto.
  - destruct (truediv_cases (x - a) (b - a)) as [-> | ->]; cbn; auto.
    destruct (truediv_cases (d - x) (d - c)) as [-> | ->]; cbn; auto.
    right. right. right. exists a, b, c, d. auto.
Qed.

(** X3.  [fuzzify_from] raises [KeyError] exactly for a formula name that is
    not registered, and the exception carries that name. *)
Theorem fuzzify_from_KeyError (self : MembershipFunction) (formula_name k : string) (x : Q) :
  fuzzify_from self formula_name x = Err (KeyError k)
  <-> formulas self !! formula_name = None /\ k = formula_name.
Proof.
  split.
  - intros H. destruct (formulas self !! formula_name) as [points|] eqn:Hreg.
    + destruct (fuzzify_from_registered self formula_name points x Hreg)
        as [E|[E|[(a & b & c & _ & E)|(a & b & c & d & _ & E)]]];
        rewrite E in H; discriminate H.
    + unfold fuzzify_from in H. rewrite Hreg in H. inversion H. auto.
  - intros [Hreg ->]. unfold fuzzify_from. now rewrite Hreg.
Qed.

(** X4.  A degree that [fuzzify_from] returns is never negative, and for a
    formula of four points it is at most 1, in whatever order the points
    are. *)
Theorem fuzzify_from_nonneg (self : MembershipFunction) (formula_name : string)
    (x degree : Q) :
  fuzzify_from self formula_name x = OK degree ->
  0 <= degree
  /\ forall points, formulas self !! formula_name = Some points ->
                    length points = 4%nat -> degree <= 1.
Proof.
  intros H. destruct (formulas self !! formula_name) as [points|] eqn:Hreg.
  - destruct (fuzzify_from_registered self formula_name points x Hreg)
      as [E|[E|[(a & b & c & Hp & E)|(a & b & c & d & Hp & E)]]];
      rewrite E in H; try discriminate H; inversion H; subst; clear H.
    + split; [apply Q.le_max_r|]. intros points [= <-] Hlen. discriminate Hlen.
    + split; [apply Q.le_max_r|]. intros _ _ _. apply clamp_trapezoid.
  - unfold fuzzify_from in H. rewrite Hreg in H. discriminate H.
Qed.

Lemma fuzzify_from_nonneg_witness :
  exists degree,
    fuzzify_from main_temp_output "heater" 30 = OK degree
    /\ 0 <= degree
    /\ forall points, formulas main_temp_output !! "heater" = Some points ->
                      length points = 4%nat -> degree <= 1.
Proof.
  eexists. split; [vm_compute; reflexivity|].
  apply (fuzzify_from_nonneg main_temp_output "heater" 30). vm_compute. reflexivity.
Defined.

(** A triangle whose points are out of order can exceed 1. *)
Example triangle_out_of_order :
  exists degree,
    fuzzify_from {| __name__ := "error"; formulas := {[ "zero" := [0; 2; 1] ]} |} "zero" 10
    = OK degree /\ degree == 5.
Proof. eexists. split; [vm_compute; reflexivity|reflexivity]. Qed.

(** ** fuzzify_all *)

(** The fold of [fuzzify_all] over a part [m] of the formulas. *)
Lemma fuzzify_all_fold (self : MembershipFunction) (x : Q) (m : gmap string (list Q)) :
  match map_fold (fun key (_ : list Q) (acc : result (gmap string Q)) =>
                    degrees ← acc;
                    d ← fuzzify_from self key x;
                    OK (<[key := d]> degrees)) (OK ∅) m with
  | OK degrees =>
      forall name d, degrees !! name = Some d
                     <-> is_Some (m !! name) /\ fuzzify_from self name x = OK d
  | Err e => exists name, is_Some (m !! name) /\ fuzzify_from self name x = Err e
  end.
Proof.
  apply (map_fold_weak_ind
    (fun (r : result (gmap string Q)) (m : gmap string (list Q)) =>
       match r with
       | OK degrees =>
           forall name d, degrees !! name = Some d
                          <-> is_Some (m !! name) /\ fuzzify_from self name x = OK d
       | Err e => exists name, is_Some (m !! name) /\ fuzzify_from self name x = Err e
       end)).
  - intros name d. rewrite !lookup_empty. split; [discriminate|].
    intros [[v Hv] _]. discriminate Hv.
  - intros i points m' r Hfresh IH. destruct r as [degrees|e]; cbn.
    + destruct (fuzzify_from self i x) as [di|e] eqn:Hi; cbn.
      * intros name d. rewrite lookup_insert_is_Some'.
        destruct (decide (i = name)) as [<-|Hne].
        -- rewrite lookup_insert_eq. split.
           ++ intros [= <-]. auto.
           ++ intros [_ Hd]. congruence.
        -- rewrite lookup_insert_ne by assumption. rewrite IH. tauto.
      * exists i. rewrite lookup_insert_eq. eauto.
    + destruct IH as (name & Hn & He). exists name.
      rewrite lookup_insert_is_Some'. auto.
Qed.

Lemma fuzzify_all_lookup (self : MembershipFunction) (x : Q) (degrees : gmap string Q)
    (name : string) (d : Q) :
  fuzzify_all self x = OK degrees -> degrees !! name = Some d ->
  fuzzify_from self name x = OK d.
Proof.
  intros H Hd. pose proof (fuzzify_all_fold self x (formulas self)) as Hfold.
  unfold fuzzify_all in H. rewrite H in Hfold. now apply Hfold in Hd.
Qed.

Lemma fuzzify_from_ge_0 (self : MembershipFunction) (formula_name : string) (x d : Q) :
  fuzzify_from self formula_name x = OK d -> 0 <= d.
Proof.
  intros H. destruct (formulas self !! formula_name) as [points|] eqn:Hreg.
  - destruct (fuzzify_from_registered self formula_name points x Hreg)
      as [E|[E|[(a & b & c & _ & E)|(a & b & c & d' & _ & E)]]];
      rewrite E in H; try discriminate H; inversion H; apply Q.le_max_r.
  - unfold fuzzify_from in H. rewrite Hreg in H. discriminate H.
Qed.

(** X5.  [fuzzify_all] returns the dictionary that holds, under each registered
    name, the degree that [fuzzify_from] returns for it; it raises what
    [fuzzify_from] raises for one of the registered formulas. *)
Theorem fuzzify_all_spec (self : MembershipFunction) (x : Q) :
  match fuzzify_all self x with
  | OK degrees =>
      forall name d, degrees !! name = Some d <-> fuzzify_from self name x = OK d
  | Err e =>
      exists name, is_Some (formulas self !! name) /\ fuzzify_from self name x = Err e
  end.
Proof.
  pose proof (fuzzify_all_fold self x (formulas self)) as Hfold. unfold fuzzify_all.
  destruct (map_fold _ _ _) as [degrees|e]; [|exact Hfold].
  intros name d. rewrite Hfold. split; [tauto|]. intros Hd. split; [|exact Hd].
  destruct (formulas self !! name) as [points|] eqn:Hreg; [eauto|].
  unfold fuzzify_from in Hd. rewrite Hreg in Hd. discriminate Hd.
Qed.

(** ** append and the other formulas *)

(** X6.  [append] keeps the name of the membership function and changes the
    degree of no formula but the one it writes. *)
Theorem append_frame (self self' : MembershipFunction) (formula_name : string)
    (points : list Q) :
  append self formula_name points = OK self' ->
  __name__ self' = __name__ self
  /\ forall other x, other <> formula_name ->
       fuzzify_from self' other x = fuzzify_from self other x.
Proof.
  unfold append. destruct (negb _); intros H; [discriminate H|].
  inversion H; subst; clear H. split; [reflexivity|].
  intros other x Hne. unfold fuzzify_from. cbn.
  rewrite lookup_insert_ne by congruence. reflexivity.
Qed.

Lemma append_frame_witness :
  __name__ main_error = __name__ (MembershipFunction_init "error")
  /\ forall other x, other <> "positive" ->
       fuzzify_from main_error other x
       = fuzzify_from
           {| __name__ := "error";
              formulas := <["zero" := [-2; 0; 2]]>
                            (<["negative" := [-1000; -999; -2; 0]]> ∅) |} other x.
Proof.
  pose proof (append_frame
    {| __name__ := "error";
       formulas := <["zero" := [-2; 0; 2]]>
                     (<["negative" := [-1000; -999; -2; 0]]> ∅) |}
    main_error "positive" [0; 2; 999; 1000] eq_refl) as H.
  exact H.
Defined.

(** ** The applied change *)



Lemma scale_bounds (c : Q) : 0 <= Qmin (Qabs c / 100) 1 /\ Qmin (Qabs c / 100) 1 <= 1.
Proof.
  pose proof (Qabs_nonneg c) as Habs.
  assert (H : 0 <= Qabs c / 100) by (apply Qle_shift_div_l; [reflexivity|lra]).
  split; [|apply Q.le_min_r].
  apply Q.min_glb; [exact H|discriminate].
Qed.

Lemma scale_saturated (c : Q) : 100 <= Qabs c -> Qmin (Qabs c / 100) 1 == 1.
Proof.
  intros H. apply Q.min_r. apply Qle_shift_div_l; [reflexivity|lra].
Qed.

Lemma applied_change_range (self : Plant) (c : Q) :
  0 <= change_value self ->
  0 <= applied_change self c /\ applied_change self c <= round2 (change_value self).
Proof.
  intros Hv. destruct (scale_bounds c) as [Hlo Hhi].
  unfold applied_change. split.
  - apply round2_nonneg. now apply Qmult_le_0_compat.
  - apply round2_mono.
    pose proof (Qmult_le_compat_r _ _ _ Hhi Hv) as H. lra.
Qed.

(** X7.  The applied change is never negative for a plant whose [change_value]
    is not, never more than the rounded [change_value], and equal to it
    from a crisp output of magnitude 100 on. *)
Theorem applied_change_bounds (self : Plant) (crisp_output : Q) :
  0 <= change_value self ->
  0 <= applied_change self crisp_output
  /\ applied_change self crisp_output <= round2 (change_value self)
  /\ (100 <= Qabs crisp_output ->
      applied_change self crisp_output = round2 (change_value self)).
Proof.
  intros Hv. destruct (applied_change_range self crisp_output Hv) as [Hlo Hhi].
  split; [exact Hlo|]. split; [exact Hhi|].
  intros Hsat. unfold applied_change. apply round2_compat.
  rewrite (scale_saturated crisp_output Hsat). ring.
Qed.

Lemma applied_change_bounds_witness :
  0 <= applied_change main_plant (-250)
  /\ applied_change main_plant (-250) <= round2 (change_value main_plant)
  /\ (100 <= Qabs (-250) ->
      applied_change main_plant (-250) = round2 (change_value main_plant)).
Proof.
  apply (applied_change_bounds main_plant (-250)). discriminate.
Defined.

(** ** The dead band *)






(** ** The new temperature *)

Lemma two_decimals_plus (x y : Q) : two_decimals x -> two_decimals y -> two_decimals (x + y).
Proof.
  intros [n Hn] [m Hm]. exists (n + m)%Z. rewrite Hn, Hm.
  unfold Qeq, Qplus. cbn. lia.
Qed.

Lemma two_decimals_opp (x : Q) : two_decimals x -> two_decimals (- x).
Proof.
  intros [n Hn]. exists (- n)%Z. rewrite Hn. unfold Qeq, Qopp. cbn. lia.
Qed.

Lemma outside_dead_band_applied (self : Plant) (c : Q) :
  ~ dead_band self c -> 1 # 100 <= applied_change self c.
Proof.
  intros H. apply Qnot_lt_le. intros Hlt. apply H. now right.
Qed.



(** X11.  Whatever the temperature, [heater] never returns less than the
    rounded temperature and [cooler] never more. *)
Theorem apply_change_direction (self : Plant) (environment_temp crisp_output new_temp : Q)
    (action : string) :
  apply_change self environment_temp crisp_output = OK (new_temp, action) ->
  (action = "heater" -> round2 environment_temp <= new_temp)
  /\ (action = "cooler" -> new_temp <= round2 environment_temp)
  /\ (action = "no_change" -> new_temp = round2 environment_temp).
Proof.
  intros H.
  destruct (apply_change_cases self environment_temp crisp_output)
    as [[Hd E]|[(Hd & Hc & E)|(Hd & Hc & E)]]; rewrite E in H;
    inversion H; subst; clear H;
    (split; [|split]); intros Hact; try discriminate Hact.
  - reflexivity.
  - pose proof (outside_dead_band_applied self crisp_output Hd) as Ha.
    apply round2_mono. lra.
  - pose proof (outside_dead_band_applied self crisp_output Hd) as Ha.
    apply round2_mono. lra.
Qed.

Lemma apply_change_direction_witness :
  ("cooler" = "heater" -> round2 30.004 <= 27.00)
  /\ ("cooler" = "cooler" -> 27.00 <= round2 30.004)
  /\ ("cooler" = "no_change" -> 27.00 = round2 30.004).
Proof.
  apply (apply_change_direction main_plant 30.004 (-250) 27.00 "cooler"). reflexivity.
Defined.

(** ** What [calculate_change] writes *)

(** The two outcomes of a [calculate_change] that returns. *)
Lemma calculate_change_result (self self' : ThermalControl) (action : string) :
  calculate_change self = OK (self', action) ->
  exists curve,
    aggregate self = OK curve
    /\ ((np_sum curve == 0
         /\ self' = set_aggregation self curve /\ action = "no_change")
        \/ (~ np_sum curve == 0
            /\ exists new_temp,
                 apply_change (plant self) (environment_temp self)
                   (centre_of_gravity self curve) = OK (new_temp, action)
                 /\ self' = set_environment_temp
                              (set_COG (set_aggregation self curve)
                                 (centre_of_gravity self curve)) new_temp)).
Proof.
  intros H. destruct (aggregate self) as [curve|e] eqn:Hagg.
  - exists curve. split; [reflexivity|].
    rewrite (calculate_change_unfold self curve Hagg) in H. cbn zeta in H.
    destruct (Qeq_bool (np_sum curve) 0) eqn:Hz.
    + left. apply Qeq_bool_iff in Hz. inversion H. auto.
    + right. split; [intros Hq; apply Qeq_bool_iff in Hq; congruence|].
      apply bind_OK_inv in H as ([new_temp a] & Hap & H). cbn in H.
      inversion H; subst. exists new_temp. split; [exact Hap|reflexivity].
  - unfold calculate_change in H. rewrite Hagg in H. discriminate H.
Qed.

(** X12.  [calculate_change] writes [aggregation], [COG] and [environment_temp]
    and nothing else: the target, the three errors, the membership
    functions, the plant, the samples and the history are as before. *)
Theorem calculate_change_frame (self self' : ThermalControl) (action : string) :
  calculate_change self = OK (self', action) ->
  target_temp self' = target_temp self
  /\ current_error self' = current_error self
  /\ previous_error self' = previous_error self
  /\ change_error self' = change_error self
  /\ temp_function self' = temp_function self
  /\ error_function self' = error_function self
  /\ error_dot_function self' = error_dot_function self
  /\ plant self' = plant self
  /\ number_of_temps self' = number_of_temps self
  /\ temperature self' = temperature self
  /\ orig_cool self' = orig_cool self
  /\ orig_hot self' = orig_hot self
  /\ orig_zero self' = orig_zero self
  /\ temperature_history self' = temperature_history self.
Proof.
  intros H. apply calculate_change_result in H
    as (curve & _ & [(_ & -> & _)|(_ & new_temp & _ & ->)]);
    repeat split; reflexivity.
Qed.

Lemma calculate_change_frame_witness :
  exists thermal thermal',
    main_setup 25 0 2 = OK thermal
    /\ calculate_change thermal = OK (thermal', "heater")
    /\ target_temp thermal' = target_temp thermal
    /\ current_error thermal' = current_error thermal
    /\ previous_error thermal' = previous_error thermal
    /\ change_error thermal' = change_error thermal
    /\ temp_function thermal' = temp_function thermal
    /\ error_function thermal' = error_function thermal
    /\ error_dot_function thermal' = error_dot_function thermal
    /\ plant thermal' = plant thermal
    /\ number_of_temps thermal' = number_of_temps thermal
    /\ temperature thermal' = temperature thermal
    /\ orig_cool thermal' = orig_cool thermal
    /\ orig_hot thermal' = orig_hot thermal
    /\ orig_zero thermal' = orig_zero thermal
    /\ temperature_history thermal' = temperature_history thermal.
Proof.
  do 2 eexists. split; [vm_compute; reflexivity|].
  apply and_from_left; [vm_compute; reflexivity|].
  apply calculate_change_frame.
Defined.

(** The temperature that [calculate_change] leaves is the old one or a
    multiple of 0.01, and so is the stored crisp output. *)
Lemma calculate_change_two_decimals (self self' : ThermalControl) (action : string) :
  calculate_change self = OK (self', action) ->
  (environment_temp self' = environment_temp self /\ COG self' = COG self)
  \/ (two_decimals (environment_temp self') /\ two_decimals (COG self')).
Proof.
  intros H. apply calculate_change_result in H
    as (curve & _ & [(_ & -> & _)|(_ & new_temp & Hap & ->)]).
  - left. split; reflexivity.
  - right. cbn. split; [|apply round2_two_decimals].
    destruct (apply_change_cases (plant self) (environment_temp self)
                (centre_of_gravity self curve))
      as [[_ E]|[(_ & _ & E)|(_ & _ & E)]];
      cbn in Hap; rewrite E in Hap; inversion Hap; apply round2_two_decimals.
Qed.

(** X13.  One step moves a temperature of at most two decimals by no more than
    the rounded [change_value] of the plant. *)
Theorem calculate_change_step_bounded (self self' : ThermalControl) (action : string) :
  two_decimals (environment_temp self) ->
  0 <= change_value (plant self) ->
  calculate_change self = OK (self', action) ->
  Qabs (environment_temp self' - environment_temp self)
  <= round2 (change_value (plant self)).
Proof.
  intros Henv Hv H.
  pose proof (round2_nonneg _ Hv) as Hr.
  apply calculate_change_result in H
    as (curve & _ & [(_ & -> & _)|(_ & new_temp & Hap & ->)]);
    cbn [environment_temp set_aggregation set_COG set_environment_temp].
  - apply Qabs_Qle_condition. lra.
  - set (c := centre_of_gravity self curve) in *.
    assert (Happ : two_decimals (applied_change (plant self) c))
      by apply round2_two_decimals.
    destruct (applied_change_range (plant self) c Hv) as (Hlo & Hhi).
    apply Qabs_Qle_condition.
    destruct (apply_change_cases (plant self) (environment_temp self) c)
      as [[_ E]|[(_ & _ & E)|(_ & _ & E)]];
      rewrite E in Hap; inversion Hap; subst; clear Hap.
    + rewrite (round2_fixed _ Henv). lra.
    + rewrite (round2_fixed _ (two_decimals_plus _ _ Henv Happ)). lra.
    + rewrite (round2_fixed _ (two_decimals_plus _ _ Henv (two_decimals_opp _ Happ))). lra.
Qed.

Lemma calculate_change_step_bounded_witness :
  exists thermal thermal',
    main_setup 25 0 2 = OK thermal
    /\ calculate_change thermal = OK (thermal', "heater")
    /\ Qabs (environment_temp thermal' - environment_temp thermal)
       <= round2 (change_value (plant thermal)).
Proof.
  do 2 eexists. split; [vm_compute; reflexivity|].
  apply and_from_left; [vm_compute; reflexivity|].
  apply calculate_change_step_bounded; [exists 0%Z; reflexivity|discriminate].
Defined.

(** ** The aggregated curve *)

Lemma comprehension_Forall2 {A B : Type} (f : A -> result B) (l : list A) (ys : list B) :
  comprehension f l = OK ys -> Forall2 (fun x y => f x = OK y) l ys.
Proof.
  revert ys. induction l as [|x l IH]; cbn; intros ys H.
  - inversion H. constructor.
  - apply bind_OK_inv in H as (y & Hy & H).
    apply bind_OK_inv in H as (ys' & Hys & H). inversion H; subst.
    constructor; [exact Hy|now apply IH].
Qed.

(** [aggregate] through the list of rules. *)
Lemma aggregate_rules (self : ThermalControl) (curve : list Q) :
  aggregate self = OK curve ->
  exists ed edd first others,
    fuzzify_all (error_function self) (current_error self) = OK ed
    /\ fuzzify_all (error_dot_function self) (change_error self) = OK edd
    /\ Forall2 (fun '(e, r) c => table_entry self ed edd e r = OK c) rules (first :: others)
    /\ curve = zip_max first others.
Proof.
  intros H. unfold aggregate in H.
  apply bind_OK_inv in H as (ed & Hed & H).
  apply bind_OK_inv in H as (edd & Hedd & H).
  cbn zeta in H.
  apply bind_OK_inv in H as (pp & Hpp & H).
  apply bind_OK_inv in H as (pz & Hpz & H).
  apply bind_OK_inv in H as (pn & Hpn & H).
  apply bind_OK_inv in H as (np & Hnp & H).
  apply bind_OK_inv in H as (nz & Hnz & H).
  apply bind_OK_inv in H as (nn & Hnn & H).
  apply bind_OK_inv in H as (zp & Hzp & H).
  apply bind_OK_inv in H as (zz & Hzz & H).
  apply bind_OK_inv in H as (zn & Hzn & H).
  inversion H; subst; clear H.
  exists ed, edd, pp, [pz; pn; np; nz; nn; zp; zz; zn].
  split; [exact Hed|]. split; [exact Hedd|]. split; [|reflexivity].
  unfold rules. repeat constructor; assumption.
Qed.

Lemma zip_max_length (others : list (list Q)) (first : list Q) (n : nat) :
  length first = n -> Forall (fun l => length l = n) others ->
  length (zip_max first others) = n.
Proof.
  revert first. unfold zip_max.
  induction others as [|l others IH]; intros first Hf Ho; cbn; [exact Hf|].
  inversion_clear Ho as [|? ? Hl Ho']. apply IH; [|exact Ho'].
  rewrite length_zip_with. lia.
Qed.

Lemma zip_max_lookup (others : list (list Q)) (vs : list Q) (i : nat) :
  Forall2 (fun l v => l !! i = Some v) others vs ->
  forall (first : list Q) (v0 : Q),
    first !! i = Some v0 ->
    zip_max first others !! i = Some (fold_left Qmax vs v0).
Proof.
  unfold zip_max. induction 1 as [|l v others vs Hl _ IH]; intros first v0 Hf; cbn.
  - exact Hf.
  - apply IH. rewrite lookup_zip_with, Hf, Hl. reflexivity.
Qed.

Lemma Qmax_choice (a b : Q) : Qmax a b = a \/ Qmax a b = b.
Proof.
  unfold Qmax, GenericMinMax.gmax. destruct (a ?= b); auto.
Qed.

Lemma fold_max_ge (vs : list Q) (v0 : Q) :
  v0 <= fold_left Qmax vs v0 /\ Forall (fun v => v <= fold_left Qmax vs v0) vs.
Proof.
  revert v0. induction vs as [|v vs IH]; intros v0; cbn.
  - split; [lra|constructor].
  - destruct (IH (Qmax v0 v)) as [H0 Hrest].
    pose proof (Q.le_max_l v0 v). pose proof (Q.le_max_r v0 v).
    split; [lra|]. constructor; [lra|exact Hrest].
Qed.

Lemma fold_max_in (vs : list Q) (v0 : Q) : fold_left Qmax vs v0 ∈ v0 :: vs.
Proof.
  revert v0. induction vs as [|v vs IH]; intros v0; cbn.
  - left.
  - specialize (IH (Qmax v0 v)). apply elem_of_cons in IH as [E|Hin].
    + rewrite E. destruct (Qmax_choice v0 v) as [-> | ->]; [left|right; left].
    + right. right. exact Hin.
Qed.

Lemma every_rule (e r : term) : (e, r) ∈ rules.
Proof. unfold rules. destruct e, r; repeat (first [left|right]). Qed.

Lemma table_entry_strength (self : ThermalControl) (ed edd : gmap string Q)
    (e r : term) (c : list Q) (i : nat) (x : Q) :
  table_entry self ed edd e r = OK c -> temperature self !! i = Some x ->
  exists s, c !! i = Some s /\ rule_strength self ed edd e r x = OK s.
Proof.
  intros Hc Hx. unfold table_entry in Hc.
  destruct (comprehension_lookup _ _ _ i x Hc Hx) as [s [Hs Hi]].
  exists s. split; [exact Hi|exact Hs].
Qed.

Lemma table_entry_length (self : ThermalControl) (ed edd : gmap string Q)
    (e r : term) (c : list Q) :
  table_entry self ed edd e r = OK c -> length c = length (temperature self).
Proof. apply comprehension_length. Qed.

(** The strengths of the rules at one sample, in the order of the
    curves. *)
Lemma strengths_at (self : ThermalControl) (ed edd : gmap string Q) (i : nat) (x : Q)
    (rs : list (term * term)) (cs : list (list Q)) :
  temperature self !! i = Some x ->
  Forall2 (fun '(e, r) c => table_entry self ed edd e r = OK c) rs cs ->
  exists vs,
    Forall2 (fun c v => c !! i = Some v) cs vs
    /\ Forall2 (fun '(e, r) v => rule_strength self ed edd e r x = OK v) rs vs.
Proof.
  intros Hx. induction 1 as [|[e r] c rs cs Hc _ (vs & Hcs & Hrs)].
  - exists []. split; constructor.
  - destruct (table_entry_strength self ed edd e r c i x Hc Hx) as (s & Hs & Hr).
    exists (s :: vs). split; constructor; assumption.
Qed.

Lemma rule_strength_nonneg (self : ThermalControl) (ed edd : gmap string Q)
    (e r : term) (x v : Q) :
  fuzzify_all (error_function self) (current_error self) = OK ed ->
  fuzzify_all (error_dot_function self) (change_error self) = OK edd ->
  rule_strength self ed edd e r x = OK v -> 0 <= v.
Proof.
  intros Hed Hedd H. unfold rule_strength in H.
  apply bind_OK_inv in H as (d & Hd & H).
  apply bind_OK_inv in H as (de & Hde & H).
  apply bind_OK_inv in H as (dr & Hdr & H).
  inversion H; subst; clear H.
  apply fuzzify_from_ge_0 in Hd.
  unfold getitem in Hde, Hdr.
  destruct (ed !! key e) as [de'|] eqn:Ee; inversion Hde; subst.
  destruct (edd !! key r) as [dr'|] eqn:Er; inversion Hdr; subst.
  apply (fuzzify_all_lookup _ _ _ _ _ Hed) in Ee. apply fuzzify_from_ge_0 in Ee.
  apply (fuzzify_all_lookup _ _ _ _ _ Hedd) in Er. apply fuzzify_from_ge_0 in Er.
  apply Q.min_glb; [assumption|]. now apply Q.min_glb.
Qed.

Lemma aggregate_length (self : ThermalControl) (curve : list Q) :
  aggregate self = OK curve -> length curve = length (temperature self).
Proof.
  intros H. apply aggregate_rules in H as (ed & edd & first & others & _ & _ & Hall & ->).
  inversion Hall as [|[e r] c rs cs Hc Hrest]; subst.
  apply zip_max_length; [now apply table_entry_length in Hc|].
  clear Hc. apply Forall_forall. intros l Hl.
  apply list_elem_of_lookup in Hl as [j Hj].
  destruct (Forall2_lookup_r _ _ _ _ _ Hrest Hj) as ([e' r'] & _ & Hc').
  now apply table_entry_length in Hc'.
Qed.

(** A sample of the aggregated curve, with the strengths it is the
    maximum of. *)
Lemma aggregate_sample (self : ThermalControl) (curve : list Q) (i : nat) (x : Q) :
  aggregate self = OK curve -> temperature self !! i = Some x ->
  exists ed edd v,
    fuzzify_all (error_function self) (current_error self) = OK ed
    /\ fuzzify_all (error_dot_function self) (change_error self) = OK edd
    /\ curve !! i = Some v
    /\ (forall e r, exists s, rule_strength self ed edd e r x = OK s /\ s <= v)
    /\ exists e r, rule_strength self ed edd e r x = OK v.
Proof.
  intros H Hx.
  apply aggregate_rules in H as (ed & edd & first & others & Hed & Hedd & Hall & ->).
  destruct (strengths_at self ed edd i x rules (first :: others) Hx Hall)
    as (vs & Hcs & Hrs).
  inversion Hcs as [|c v0 cs vs' Hv0 Hvs']; subst.
  exists ed, edd, (fold_left Qmax vs' v0).
  split; [exact Hed|]. split; [exact Hedd|].
  split; [now apply zip_max_lookup|].
  destruct (fold_max_ge vs' v0) as [H0 Hge]. split.
  - intros e r. pose proof (every_rule e r) as Hin.
    apply list_elem_of_lookup in Hin as [j Hj].
    destruct (Forall2_lookup_l _ _ _ _ _ Hrs Hj) as (s & Hs & Hstr).
    exists s. split; [exact Hstr|].
    destruct j as [|j]; cbn in Hs.
    + inversion Hs; subst. exact H0.
    + rewrite Forall_forall in Hge. apply Hge.
      apply list_elem_of_lookup. eauto.
  - pose proof (fold_max_in vs' v0) as Hin.
    apply list_elem_of_lookup in Hin as [j Hj].
    destruct (Forall2_lookup_r _ _ _ _ _ Hrs Hj) as ([e r] & _ & Hstr).
    exists e, r. exact Hstr.
Qed.

(** X14.  The aggregated curve is, sample by sample, the largest of the nine
    rule strengths: no rule is stronger than the curve at any sample, and
    one rule is as strong. *)
Theorem aggregate_is_max (self : ThermalControl) (curve : list Q) :
  aggregate self = OK curve ->
  exists ed edd,
    fuzzify_all (error_function self) (current_error self) = OK ed
    /\ fuzzify_all (error_dot_function self) (change_error self) = OK edd
    /\ length curve = length (temperature self)
    /\ forall i x, temperature self !! i = Some x ->
         exists v,
           curve !! i = Some v
           /\ (forall e r, exists s, rule_strength self ed edd e r x = OK s /\ s <= v)
           /\ exists e r, rule_strength self ed edd e r x = OK v.
Proof.
  intros H. pose proof (aggregate_length self curve H) as Hlen.
  destruct (aggregate_rules self curve H)
    as (ed & edd & first & others & Hed & Hedd & _ & _).
  exists ed, edd. split; [exact Hed|]. split; [exact Hedd|]. split; [exact Hlen|].
  intros i x Hx.
  destruct (aggregate_sample self curve i x H Hx)
    as (ed' & edd' & v & Hed' & Hedd' & Hv & Hle & Hex).
  assert (ed' = ed) by congruence. assert (edd' = edd) by congruence. subst.
  exists v. auto.
Qed.

Lemma aggregate_is_max_witness :
  exists thermal curve,
    main_setup 25 0 2 = OK thermal
    /\ aggregate thermal = OK curve
    /\ exists ed edd,
         fuzzify_all (error_function thermal) (current_error thermal) = OK ed
         /\ fuzzify_all (error_dot_function thermal) (change_error thermal) = OK edd
         /\ length curve = length (temperature thermal)
         /\ forall i x, temperature thermal !! i = Some x ->
              exists v,
                curve !! i = Some v
                /\ (forall e r, exists s,
                       rule_strength thermal ed edd e r x = OK s /\ s <= v)
                /\ exists e r, rule_strength thermal ed edd e r x = OK v.
Proof.
  do 2 eexists. split; [vm_compute; reflexivity|].
  apply and_from_left; [vm_compute; reflexivity|].
  apply aggregate_is_max.
Defined.

Lemma aggregate_samples_nonneg (self : ThermalControl) (curve : list Q) :
  aggregate self = OK curve -> Forall (fun v => 0 <= v) curve.
Proof.
  intros H. apply Forall_forall. intros v Hv.
  apply list_elem_of_lookup in Hv as [i Hi].
  assert (Hlt : (i < length (temperature self))%nat).
  { rewrite <- (aggregate_length self curve H). eapply lookup_lt_Some. exact Hi. }
  apply lookup_lt_is_Some in Hlt as [x Hx].
  destruct (aggregate_sample self curve i x H Hx)
    as (ed & edd & v' & Hed & Hedd & Hv' & _ & e & r & Hstr).
  assert (v' = v) by congruence. subst.
  eapply rule_strength_nonneg; eassumption.
Qed.

(** X15.  The aggregated curve has a sample for every temperature sample and no
    negative sample, so its sum is not negative, and the sum is zero only
    when every sample is. *)
Theorem aggregate_nonneg (self : ThermalControl) (curve : list Q) :
  aggregate self = OK curve ->
  length curve = length (temperature self)
  /\ Forall (fun v => 0 <= v) curve
  /\ 0 <= np_sum curve
  /\ (np_sum curve == 0 <-> Forall (fun v => v == 0) curve).
Proof.
  intros H. pose proof (aggregate_samples_nonneg self curve H) as Hpos.
  split; [now apply aggregate_length|]. split; [exact Hpos|].
  split; [now apply np_sum_nonneg|now apply np_sum_zero].
Qed.

Lemma aggregate_nonneg_witness :
  exists thermal curve,
    main_setup 25 0 2 = OK thermal
    /\ aggregate thermal = OK curve
    /\ length curve = length (temperature thermal)
    /\ Forall (fun v => 0 <= v) curve
    /\ 0 <= np_sum curve
    /\ (np_sum curve == 0 <-> Forall (fun v => v == 0) curve).
Proof.
  do 2 eexists. split; [vm_compute; reflexivity|].
  apply and_from_left; [vm_compute; reflexivity|].
  apply aggregate_nonneg.
Defined.

(** ** The centre of gravity *)

Lemma weighted_sum_bounds (lo hi : Q) (w : list Q) :
  forall xs : list Q,
    length w = length xs ->
    Forall (fun v => 0 <= v) w ->
    Forall (fun x => lo <= x /\ x <= hi) xs ->
    lo * np_sum w <= np_sum (zip_with Qmult w xs)
    /\ np_sum (zip_with Qmult w xs) <= hi * np_sum w.
Proof.
  induction w as [|w0 w IH]; intros xs Hlen Hw Hxs.
  - cbn. split; unfold np_sum; cbn; lra.
  - destruct xs as [|x0 xs]; [discriminate Hlen|].
    inversion_clear Hw as [|? ? Hw0 Hw']. inversion_clear Hxs as [|? ? [Hlo Hhi] Hxs'].
    destruct (IH xs ltac:(cbn in Hlen; lia) Hw' Hxs') as [IHlo IHhi].
    cbn [zip_with]. rewrite !np_sum_cons.
    pose proof (Qmult_le_compat_r _ _ _ Hlo Hw0).
    pose proof (Qmult_le_compat_r _ _ _ Hhi Hw0).
    split; lra.
Qed.

Lemma centre_of_gravity_bounds (lo hi : Q) (self : ThermalControl) (curve : list Q) :
  two_decimals lo -> two_decimals hi ->
  Forall (fun x => lo <= x /\ x <= hi) (temperature self) ->
  aggregate self = OK curve -> ~ np_sum curve == 0 ->
  lo <= centre_of_gravity self curve /\ centre_of_gravity self curve <= hi.
Proof.
  intros Hlo Hhi Hxs Hagg Hnz.
  pose proof (aggregate_samples_nonneg self curve Hagg) as Hpos.
  pose proof (aggregate_length self curve Hagg) as Hlen.
  pose proof (np_sum_nonneg curve Hpos) as Hsum.
  assert (Hden : 0 < np_sum curve).
  { destruct (Qlt_le_dec 0 (np_sum curve)) as [?|Hle]; [assumption|].
    exfalso. apply Hnz. lra. }
  destruct (weighted_sum_bounds lo hi curve (temperature self) Hlen Hpos Hxs) as [Hl Hh].
  unfold centre_of_gravity.
  set (q := np_sum (zip_with Qmult curve (temperature self)) / np_sum curve).
  assert (Hq1 : lo <= q) by (apply Qle_shift_div_l; [exact Hden|exact Hl]).
  assert (Hq2 : q <= hi) by (apply Qle_shift_div_r; [exact Hden|exact Hh]).
  pose proof (round2_fixed lo Hlo). pose proof (round2_fixed hi Hhi).
  pose proof (round2_mono lo q Hq1). pose proof (round2_mono q hi Hq2).
  split; lra.
Qed.

(** The crisp output stays within the range of the temperature samples:
    when the samples lie between two bounds of at most two decimals and
    the stored [COG] does, the [COG] after [calculate_change] does. *)
Lemma calculate_change_COG_bounds (lo hi : Q) (self self' : ThermalControl) (action : string) :
  two_decimals lo -> two_decimals hi ->
  Forall (fun x => lo <= x /\ x <= hi) (temperature self) ->
  lo <= COG self /\ COG self <= hi ->
  calculate_change self = OK (self', action) ->
  lo <= COG self' /\ COG self' <= hi.
Proof.
  intros Hlo Hhi Hxs Hcog H.
  apply calculate_change_result in H
    as (curve & Hagg & [(_ & -> & _)|(Hnz & new_temp & _ & ->)]).
  - exact Hcog.
  - cbn [COG set_environment_temp set_COG].
    now apply centre_of_gravity_bounds.
Qed.

(** ** One turn of the loop *)

(** A turn that returns: the inference returned, [q] was up, and the
    controller is the one after the inference with its errors, its target
    and its history updated in that order. *)
Lemma loop_body_result (thermal thermal' : ThermalControl) (k : keys) (action : string) :
  loop_body thermal k = OK (thermal', action) ->
  exists inferred oldest rest,
    calculate_change thermal = OK (inferred, action)
    /\ q_pressed k = false
    /\ temperature_history inferred = oldest :: rest
    /\ thermal' =
         set_temperature_history (keyed inferred k)
           (rest ++ [environment_temp inferred]).
Proof.
  intros H. unfold loop_body in H.
  apply bind_OK_inv in H as ([inferred a] & Hcc & H). cbn beta iota zeta in H.
  apply bind_OK_inv in H as (after_keys & Hkey & H).
  apply bind_OK_inv in H as (recorded & Hrec & H).
  inversion H; subst; clear H.
  unfold check_key in Hkey. destruct (q_pressed k) eqn:Hq; [discriminate Hkey|].
  inversion Hkey; subst; clear Hkey.
  unfold record_history in Hrec.
  exists inferred. unfold keyed.
  destruct (c_pressed k) as [[v|]|]; cbn in Hrec;
    destruct (temperature_history inferred) as [|oldest rest] eqn:Hh;
    try discriminate Hrec; inversion Hrec; subst; clear Hrec;
    exists oldest, rest; repeat split; first [assumption|reflexivity].
Qed.

(** X16.  A turn of the loop leaves the errors of the temperature it ends with
    against the target it started with: a target typed at the prompt is
    stored, and enters the errors one turn later. *)
Theorem loop_body_errors (thermal thermal' : ThermalControl) (k : keys) (action : string) :
  loop_body thermal k = OK (thermal', action) ->
  previous_error thermal' = current_error thermal
  /\ current_error thermal' = target_temp thermal - environment_temp thermal'
  /\ change_error thermal' = previous_error thermal' - current_error thermal'
  /\ target_temp thermal' = target_after k (target_temp thermal)
  /\ (current_error thermal == target_temp thermal - environment_temp thermal ->
      change_error thermal' == environment_temp thermal' - environment_temp thermal).
Proof.
  intros H. apply loop_body_result in H
    as (inferred & oldest & rest & Hcc & _ & _ & ->).
  unfold keyed, target_after.
  apply calculate_change_result in Hcc
    as (curve & _ & [(_ & -> & _)|(_ & new_temp & _ & ->)]);
    destruct (c_pressed k) as [[v|]|]; cbn;
    repeat split; try reflexivity; intros Hinv; rewrite Hinv; ring.
Qed.

Lemma loop_body_errors_witness :
  exists thermal thermal',
    main_setup 25 0 2 = OK thermal
    /\ loop_body thermal {| c_pressed := Some (Some 30); q_pressed := false |}
       = OK (thermal', "heater")
    /\ previous_error thermal' = current_error thermal
    /\ current_error thermal' = target_temp thermal - environment_temp thermal'
    /\ change_error thermal' = previous_error thermal' - current_error thermal'
    /\ target_temp thermal'
       = target_after {| c_pressed := Some (Some 30); q_pressed := false |}
           (target_temp thermal)
    /\ (current_error thermal == target_temp thermal - environment_temp thermal ->
        change_error thermal' == environment_temp thermal' - environment_temp thermal).
Proof.
  do 2 eexists. split; [vm_compute; reflexivity|].
  apply and_from_left; [vm_compute; reflexivity|].
  apply loop_body_errors.
Defined.

(** ** Runs *)

Lemma run_invariant (P : ThermalControl -> Prop) :
  (forall thermal k thermal' action,
      P thermal -> loop_body thermal k = OK (thermal', action) -> P thermal') ->
  forall input thermal states,
    P thermal -> run thermal input = OK states -> Forall P states.
Proof.
  intros Hstep. induction input as [|k input IH]; intros thermal states HP H; cbn in H.
  - inversion H. constructor.
  - apply bind_OK_inv in H as ([thermal' a] & Hbody & H). cbn beta iota in H.
    apply bind_OK_inv in H as (states' & Hrun & H). inversion H; subst; clear H.
    pose proof (Hstep _ _ _ _ HP Hbody) as HP'.
    constructor; [exact HP'|]. now apply (IH thermal').
Qed.

(** X17.  A run that returns saw [q] up at every turn. *)
Theorem run_without_quit (input : list keys) :
  forall (thermal : ThermalControl) (states : list ThermalControl),
    run thermal input = OK states ->
    Forall (fun k => q_pressed k = false) input.
Proof.
  induction input as [|k input IH]; intros thermal states H; [constructor|].
  cbn in H. apply bind_OK_inv in H as ([thermal' a] & Hbody & H). cbn beta iota in H.
  apply bind_OK_inv in H as (states' & Hrun & _).
  apply loop_body_result in Hbody as (_ & _ & _ & _ & Hq & _).
  constructor; [exact Hq|]. now apply (IH thermal' states').
Qed.

Lemma run_without_quit_witness :
  exists thermal states,
    main_setup 25 0 2 = OK thermal
    /\ run thermal [no_keys; {| c_pressed := Some None; q_pressed := false |}] = OK states
    /\ Forall (fun k => q_pressed k = false)
         [no_keys; {| c_pressed := Some None; q_pressed := false |}].
Proof.
  do 2 eexists. split; [vm_compute; reflexivity|].
  apply and_from_left; [vm_compute; reflexivity|].
  apply run_without_quit.
Defined.

(** What [__init__] leaves in the samples, the crisp output, the
    temperature and the errors. *)
Lemma ThermalControl_init_state (command initial_temp : Q)
    (tf ef edf : MembershipFunction) (p : Plant) (thermal : ThermalControl) :
  ThermalControl_init command initial_temp tf ef edf p = OK thermal ->
  temperature thermal = linspace (-100) 100 200
  /\ COG thermal = 0
  /\ environment_temp thermal = initial_temp
  /\ target_temp thermal = command
  /\ plant thermal = p.
Proof.
  intros H. unfold ThermalControl_init in H.
  apply bind_OK_inv in H as (cool & _ & H).
  apply bind_OK_inv in H as (hot & _ & H).
  apply bind_OK_inv in H as (zeros & _ & H).
  inversion H. repeat split; reflexivity.
Qed.

Lemma samples_in_range :
  Forall (fun x => -100 <= x /\ x <= 100) (linspace (-100) 100 200).
Proof.
  assert (H : forallb (fun x => Qle_bool (-100) x && Qle_bool x 100)
                (linspace (-100) 100 200) = true) by (vm_compute; reflexivity).
  rewrite forallb_forall in H. apply Forall_forall. intros x Hx.
  apply list_elem_of_In in Hx. apply H in Hx.
  apply andb_true_iff in Hx as [H1 H2]. split; now apply Qle_bool_iff.
Qed.

Lemma loop_body_frame (thermal thermal' : ThermalControl) (k : keys) (action : string) :
  loop_body thermal k = OK (thermal', action) ->
  exists inferred,
    calculate_change thermal = OK (inferred, action)
    /\ temperature thermal' = temperature thermal
    /\ temp_function thermal' = temp_function thermal
    /\ error_function thermal' = error_function thermal
    /\ error_dot_function thermal' = error_dot_function thermal
    /\ plant thermal' = plant thermal
    /\ COG thermal' = COG inferred
    /\ environment_temp thermal' = environment_temp inferred
    /\ exists oldest rest,
         temperature_history thermal = oldest :: rest
         /\ temperature_history thermal' = rest ++ [environment_temp inferred].
Proof.
  intros H. apply loop_body_result in H
    as (inferred & oldest & rest & Hcc & _ & Hh & ->).
  exists inferred. split; [exact Hcc|].
  apply calculate_change_result in Hcc
    as (curve & _ & [(_ & -> & _)|(_ & new_temp & _ & ->)]);
    unfold keyed; destruct (c_pressed k) as [[v|]|]; cbn in *;
    repeat split; try reflexivity; exists oldest, rest; auto.
Qed.

(** X18.  In every state of a run of a new controller the crisp output lies
    between -100 and 100, so the scale of [apply_change] is never cut
    at 1. *)
Theorem run_COG_in_range (command initial_temp : Q)
    (tf ef edf : MembershipFunction) (p : Plant) (thermal : ThermalControl)
    (input : list keys) (states : list ThermalControl) :
  ThermalControl_init command initial_temp tf ef edf p = OK thermal ->
  run thermal input = OK states ->
  Forall (fun s => -100 <= COG s /\ COG s <= 100
                   /\ Qmin (Qabs (COG s) / 100) 1 == Qabs (COG s) / 100) states.
Proof.
  intros Hinit Hrun.
  apply ThermalControl_init_state in Hinit as (Htemp & Hcog & _).
  assert (Hinv : Forall (fun s => temperature s = linspace (-100) 100 200
                                  /\ -100 <= COG s /\ COG s <= 100) states).
  { apply (run_invariant
             (fun s => temperature s = linspace (-100) 100 200
                       /\ -100 <= COG s /\ COG s <= 100)) with input thermal;
      [| |exact Hrun].
    - intros th k th' a (Ht & Hc) Hbody.
      apply loop_body_frame in Hbody
        as (inferred & Hcc & Ht' & _ & _ & _ & _ & HC & _).
      rewrite Ht', HC. split; [exact Ht|].
      apply (calculate_change_COG_bounds (-100) 100 th inferred a);
        [exists (-10000)%Z; reflexivity|exists 10000%Z; reflexivity| |exact Hc|exact Hcc].
      rewrite Ht. exact samples_in_range.
    - rewrite Hcog. split; [exact Htemp|]. split; discriminate. }
  eapply Forall_impl; [exact Hinv|]. cbn. intros s (_ & Hlo & Hhi).
  split; [exact Hlo|]. split; [exact Hhi|].
  apply Q.min_l. apply Qle_shift_div_r; [reflexivity|].
  apply Qabs_Qle_condition. lra.
Qed.

Lemma run_COG_in_range_witness :
  exists thermal states,
    ThermalControl_init 25 0 main_temp_output main_error main_error_dot main_plant
    = OK thermal
    /\ run thermal [no_keys; no_keys] = OK states
    /\ Forall (fun s => -100 <= COG s /\ COG s <= 100
                        /\ Qmin (Qabs (COG s) / 100) 1 == Qabs (COG s) / 100) states.
Proof.
  do 2 eexists. apply and_from_left; [vm_compute; reflexivity|]. intros Hinit.
  apply and_from_left; [vm_compute; reflexivity|].
  apply (run_COG_in_range 25 0 main_temp_output main_error main_error_dot main_plant
           _ [no_keys; no_keys] _ Hinit).
Defined.

(** X19.  From an initial temperature of at most two decimals every state of a
    run holds a temperature of at most two decimals, and so is every
    entry of its history. *)
Theorem run_two_decimals (command initial_temp : Q)
    (tf ef edf : MembershipFunction) (p : Plant) (thermal : ThermalControl)
    (input : list keys) (states : list ThermalControl) :
  two_decimals initial_temp ->
  ThermalControl_init command initial_temp tf ef edf p = OK thermal ->
  run thermal input = OK states ->
  Forall (fun s => two_decimals (environment_temp s)
                   /\ Forall two_decimals (temperature_history s)) states.
Proof.
  intros Htwo Hinit Hrun.
  pose proof (ThermalControl_init_attributes _ _ _ _ _ _ _ Hinit) as (_ & _ & _ & Hhist).
  apply ThermalControl_init_state in Hinit as (_ & _ & Henv & _).
  apply (run_invariant
           (fun s => two_decimals (environment_temp s)
                     /\ Forall two_decimals (temperature_history s)))
    with input thermal; [| |exact Hrun].
  - intros th k th' a (He & Hh) Hbody.
    apply loop_body_frame in Hbody
      as (inferred & Hcc & _ & _ & _ & _ & _ & _ & He' & oldest & rest & Hold & Hnew).
    assert (Hinf : two_decimals (environment_temp inferred)).
    { destruct (calculate_change_two_decimals _ _ _ Hcc) as [[E _]|[H _]];
        [rewrite E; exact He|exact H]. }
    rewrite He', Hnew. split; [exact Hinf|].
    rewrite Hold in Hh. inversion_clear Hh as [|? ? _ Hrest].
    apply Forall_app. split; [exact Hrest|]. constructor; [exact Hinf|constructor].
  - rewrite Henv, Hhist. split; [exact Htwo|].
    apply Forall_replicate. exact Htwo.
Qed.

Lemma run_two_decimals_witness :
  exists thermal states,
    ThermalControl_init 25 0.5 main_temp_output main_error main_error_dot main_plant
    = OK thermal
    /\ run thermal [no_keys; no_keys] = OK states
    /\ Forall (fun s => two_decimals (environment_temp s)
                        /\ Forall two_decimals (temperature_history s)) states.
Proof.
  do 2 eexists. apply and_from_left; [vm_compute; reflexivity|]. intros Hinit.
  apply and_from_left; [vm_compute; reflexivity|].
  apply (run_two_decimals 25 0.5 main_temp_output main_error main_error_dot main_plant
           _ [no_keys; no_keys] _ ltac:(exists 50%Z; reflexivity) Hinit).
Defined.

(** ** The main block never reaches the degenerate case within its
    formulas *)

Lemma main_error_fires (x : Q) :
  -1000 < x -> x < 1000 ->
  exists e d, fuzzify_from main_error (key e) x = OK d /\ 0 < d.
Proof.
  intros Hlo Hhi. destruct (Qlt_le_dec x 0) as [Hneg|Hge].
  - exists negative. eexists. split.
    + apply (trapezoid_value main_error "negative" (-1000) (-999) (-2) 0 x);
        reflexivity.
    + pose proof (div_pos (x - -1000) (-999 - -1000) ltac:(lra) ltac:(reflexivity)).
      pose proof (div_pos (0 - x) (0 - -2) ltac:(lra) ltac:(reflexivity)).
      min_max_cases; lra.
  - destruct (Qlt_le_dec 0 x) as [Hpos|Hle].
    + exists positive. eexists. split.
      * apply (trapezoid_value main_error "positive" 0 2 999 1000 x); reflexivity.
      * pose proof (div_pos (x - 0) (2 - 0) ltac:(lra) ltac:(reflexivity)).
        pose proof (div_pos (1000 - x) (1000 - 999) ltac:(lra) ltac:(reflexivity)).
        min_max_cases; lra.
    + exists zero. eexists. split.
      * apply (triangle_value main_error "zero" (-2) 0 2 x); reflexivity.
      * pose proof (div_pos (x - -2) (0 - -2) ltac:(lra) ltac:(reflexivity)).
        pose proof (div_pos (2 - x) (2 - 0) ltac:(lra) ltac:(reflexivity)).
        min_max_cases; lra.
Qed.

Lemma main_error_dot_fires (x : Q) :
  -1000 < x -> x < 1000 ->
  exists r d, fuzzify_from main_error_dot (key r) x = OK d /\ 0 < d.
Proof.
  intros Hlo Hhi. destruct (Qlt_le_dec x 0) as [Hneg|Hge].
  - exists negative. eexists. split.
    + apply (trapezoid_value main_error_dot "negative" (-1000) (-999) (-5) 0 x);
        reflexivity.
    + pose proof (div_pos (x - -1000) (-999 - -1000) ltac:(lra) ltac:(reflexivity)).
      pose proof (div_pos (0 - x) (0 - -5) ltac:(lra) ltac:(reflexivity)).
      min_max_cases; lra.
  - destruct (Qlt_le_dec 0 x) as [Hpos|Hle].
    + exists positive. eexists. split.
      * apply (trapezoid_value main_error_dot "positive" 0 5 999 1000 x); reflexivity.
      * pose proof (div_pos (x - 0) (5 - 0) ltac:(lra) ltac:(reflexivity)).
        pose proof (div_pos (1000 - x) (1000 - 999) ltac:(lra) ltac:(reflexivity)).
        min_max_cases; lra.
    + exists zero. eexists. split.
      * apply (triangle_value main_error_dot "zero" (-50) 0 5 x); reflexivity.
      * pose proof (div_pos (x - -50) (0 - -50) ltac:(lra) ltac:(reflexivity)).
        pose proof (div_pos (5 - x) (5 - 0) ltac:(lra) ltac:(reflexivity)).
        min_max_cases; lra.
Qed.

(** Every output formula of the main block is positive at one of the
    samples. *)
Lemma main_output_sample (e r : term) :
  exists i x d,
    linspace (-100) 100 200 !! i = Some x
    /\ fuzzify_from main_temp_output (table_output e r) x = OK d
    /\ 0 < d.
Proof.
  destruct e, r; cbn [table_output];
    first [ exists 199%nat; do 2 eexists;
            split; [vm_compute; reflexivity|];
            split; [vm_compute; reflexivity|reflexivity]
          | exists 0%nat; do 2 eexists;
            split; [vm_compute; reflexivity|];
            split; [vm_compute; reflexivity|reflexivity]
          | exists 100%nat; do 2 eexists;
            split; [vm_compute; reflexivity|];
            split; [vm_compute; reflexivity|reflexivity] ].
Qed.

Lemma fuzzify_all_has (self : MembershipFunction) (x : Q) (degrees : gmap string Q)
    (name : string) (d : Q) :
  fuzzify_all self x = OK degrees -> fuzzify_from self name x = OK d ->
  degrees !! name = Some d.
Proof.
  intros H Hd. pose proof (fuzzify_all_fold self x (formulas self)) as Hfold.
  unfold fuzzify_all in H. rewrite H in Hfold. apply Hfold. split; [|exact Hd].
  destruct (formulas self !! name) as [points|] eqn:Hreg; [eauto|].
  unfold fuzzify_from in Hd. rewrite Hreg in Hd. discriminate Hd.
Qed.

(** X20.  With the membership functions and the samples of the main block, an
    error and a change of error strictly between -1000 and 1000 always
    fire a rule: the aggregated curve has a positive sum, so
    [calculate_change] does not take its [no_change] exit at
    [denominator == 0]. *)
Theorem main_block_fires (thermal : ThermalControl) (curve : list Q) :
  temp_function thermal = main_temp_output ->
  error_function thermal = main_error ->
  error_dot_function thermal = main_error_dot ->
  temperature thermal = linspace (-100) 100 200 ->
  -1000 < current_error thermal /\ current_error thermal < 1000 ->
  -1000 < change_error thermal /\ change_error thermal < 1000 ->
  aggregate thermal = OK curve ->
  0 < np_sum curve.
Proof.
  intros Htf Hef Hedf Htemp [He1 He2] [Hr1 Hr2] Hagg.
  destruct (main_error_fires (current_error thermal) He1 He2) as (e & de & Hde & Hde0).
  destruct (main_error_dot_fires (change_error thermal) Hr1 Hr2) as (r & dr & Hdr & Hdr0).
  destruct (main_output_sample e r) as (i & x & d & Hx & Hd & Hd0).
  rewrite <- Htemp in Hx.
  destruct (aggregate_sample thermal curve i x Hagg Hx)
    as (ed & edd & v & Hed & Hedd & Hv & Hle & _).
  rewrite Hef in Hed. rewrite Hedf in Hedd.
  pose proof (fuzzify_all_has _ _ _ _ _ Hed Hde) as Hlde.
  pose proof (fuzzify_all_has _ _ _ _ _ Hedd Hdr) as Hldr.
  destruct (Hle e r) as (s & Hs & Hsv).
  unfold rule_strength, getitem in Hs. rewrite Htf, Hd, Hlde, Hldr in Hs.
  cbn in Hs. inversion Hs; subst s; clear Hs.
  assert (Hv0 : 0 < v).
  { eapply Qlt_le_trans; [|exact Hsv].
    destruct (Q.min_spec de dr) as [[_ E1]|[_ E1]];
      destruct (Q.min_spec d (Qmin de dr)) as [[_ E2]|[_ E2]]; lra. }
  pose proof (aggregate_samples_nonneg thermal curve Hagg) as Hpos.
  pose proof (np_sum_nonneg curve Hpos) as Hsum.
  destruct (Qlt_le_dec 0 (np_sum curve)) as [?|Hle0]; [assumption|exfalso].
  assert (Hz : np_sum curve == 0) by lra.
  apply (np_sum_zero curve Hpos) in Hz. rewrite Forall_forall in Hz.
  assert (Hin : v ∈ curve) by (apply list_elem_of_lookup; eauto).
  apply Hz in Hin. lra.
Qed.

Lemma main_block_fires_witness :
  exists thermal curve,
    main_setup 25 0 2 = OK thermal
    /\ aggregate thermal = OK curve
    /\ 0 < np_sum curve.
Proof.
  do 2 eexists. split; [vm_compute; reflexivity|].
  apply and_from_left; [vm_compute; reflexivity|].
  apply main_block_fires; try (vm_compute; reflexivity); split; reflexivity.
Defined.

(** ** Missing formulas *)

Lemma linspace_first : exists rest, linspace (-100) 100 200 = -100 :: rest.
Proof. eexists. vm_compute. reflexivity. Qed.

Lemma comprehension_Err {A B : Type} (f : A -> result B) (x : A) (l : list A)
    (e : exception) :
  f x = Err e -> comprehension f (x :: l) = Err e.
Proof. intros H. cbn. now rewrite H. Qed.

(** X21.  [__init__] evaluates the output formulas [cooler], [heater] and
    [no_change] at the samples, in that order: an output membership
    function without [cooler] gives [KeyError] for [cooler], and no
    controller.  The two input membership functions are not read. *)
Theorem ThermalControl_init_KeyError (command initial_temp : Q)
    (tf ef edf : MembershipFunction) (p : Plant) :
  formulas tf !! "cooler" = None ->
  ThermalControl_init command initial_temp tf ef edf p = Err (KeyError "cooler").
Proof.
  intros Hmiss. unfold ThermalControl_init.
  destruct linspace_first as [rest ->].
  rewrite (comprehension_Err (fuzzify_from tf "cooler") (-100) rest (KeyError "cooler")).
  - reflexivity.
  - unfold fuzzify_from. now rewrite Hmiss.
Qed.

Lemma ThermalControl_init_KeyError_witness :
  ThermalControl_init 25 0 (MembershipFunction_init "temp_output") main_error
    main_error_dot main_plant
  = Err (KeyError "cooler").
Proof.
  apply (ThermalControl_init_KeyError 25 0 (MembershipFunction_init "temp_output")).
  reflexivity.
Defined.

Lemma fuzzify_all_lacks (self : MembershipFunction) (x : Q) (degrees : gmap string Q)
    (name : string) :
  fuzzify_all self x = OK degrees -> formulas self !! name = None ->
  degrees !! name = None.
Proof.
  intros H Hmiss. destruct (degrees !! name) as [d|] eqn:Hd; [|reflexivity].
  apply (fuzzify_all_lookup self x degrees name d H) in Hd.
  unfold fuzzify_from in Hd. rewrite Hmiss in Hd. discriminate Hd.
Qed.

(** X22.  An error membership function without [positive] passes [__init__];
    the first [calculate_change] then raises [KeyError] for [positive],
    when its other formulas, those of the rate and [heater] can be
    evaluated and there is a sample. *)
Theorem calculate_change_KeyError (self : ThermalControl) :
  all_evaluable (error_function self) ->
  all_evaluable (error_dot_function self) ->
  all_evaluable (temp_function self) ->
  is_Some (formulas (temp_function self) !! "heater") ->
  temperature self <> [] ->
  formulas (error_function self) !! "positive" = None ->
  calculate_change self = Err (KeyError "positive").
Proof.
  intros He Hd Ht Hheater Hsamples Hmiss.
  destruct (fuzzify_all_total (error_function self) (current_error self) He)
    as [ed [Hed _]].
  destruct (fuzzify_all_total (error_dot_function self) (change_error self) Hd)
    as [edd [Hedd _]].
  pose proof (fuzzify_all_lacks _ _ _ "positive" Hed Hmiss) as Hlack.
  destruct (temperature self) as [|x rest] eqn:Htemp; [contradiction|].
  destruct (fuzzify_from_total (temp_function self) "heater" x Ht Hheater) as [d Hdeg].
  assert (Hentry : table_entry self ed edd positive positive = Err (KeyError "positive")).
  { unfold table_entry. rewrite Htemp. apply comprehension_Err.
    cbn [table_output key]. rewrite Hdeg. unfold getitem. rewrite Hlack. reflexivity. }
  unfold calculate_change, aggregate. rewrite Hed, Hedd.
  cbn [mbind result_bind]. rewrite Hentry. reflexivity.
Qed.

Lemma calculate_change_KeyError_witness :
  exists thermal,
    ThermalControl_init 25 0 main_temp_output (MembershipFunction_init "error")
      main_error_dot main_plant = OK thermal
    /\ calculate_change thermal = Err (KeyError "positive").
Proof.
  assert (Hex : exists thermal,
             ThermalControl_init 25 0 main_temp_output (MembershipFunction_init "error")
               main_error_dot main_plant = OK thermal)
    by (eexists; vm_compute; reflexivity).
  destruct Hex as [thermal Hinit]. exists thermal. split; [exact Hinit|].
  pose proof (ThermalControl_init_attributes _ _ _ _ _ _ _ Hinit) as (Ht & He & Hd & _).
  pose proof (ThermalControl_init_state _ _ _ _ _ _ _ Hinit) as (Htemp & _).
  apply calculate_change_KeyError; rewrite ?Ht, ?He, ?Hd, ?Htemp.
  - apply map_Forall_empty.
  - apply three_formulas_evaluable; reflexivity.
  - apply three_formulas_evaluable; reflexivity.
  - eexists. reflexivity.
  - destruct linspace_first as [rest ->]. discriminate.
  - reflexivity.
Defined.
